(** * preCMGsim: the CMG run-length codec, the porosity scatter and the
      array comparator

    A shallow embedding of
    - [compress_array_to_cmg_format] and [decompress_cmg_format_to_array]
      (generate_full_porosity_original.py),
    - [read_cmg_format_file] and [compare_arrays] (compare_files_original.py),
    - [generate_full_porosity] (generate_full_porosity.py),
    followed by the properties of the specification that concern them.

    Conventions of the model:
    - Python [float] and NumPy [float64] values are IEEE-754 binary64
      numbers; they are Rocq's primitive floats, the same format with the
      same rounding.  [float(s)], [f"{x:.6f}"] and [np.isclose] are
      written out on them.
    - Text is ASCII: a [string] is a sequence of bytes, and bytes above
      127 are neither digits nor white space.
    - A file is the list of its lines; that the file exists is assumed,
      and printing is left out.
    - A [while] loop is a function with fuel that returns [None] when
      the fuel runs out; the callers give enough fuel, which the
      properties below establish.
    - An exception is a value of [exn], carried by [Raise].
    - The interpreter is a 64-bit CPython with its default limits:
      [int] converts a text of at most 4300 digits, an index-sized
      integer is at most 2^63 - 1, and an object holds at most
      (2^63 - 1) / 8 items of eight bytes.  Within these limits the
      machine is taken to have the memory: no other [MemoryError] is
      raised. *)

From Stdlib Require Import ZArith NArith List String Ascii Bool Lia.
From Stdlib Require Import PrimFloat FloatOps SpecFloat FloatAxioms.
From Stdlib Require Import Sorted Permutation.
Import ListNotations.

Set Warnings "-inexact-float".

Local Open Scope string_scope.
Local Open Scope list_scope.

(** ** Exceptions and results *)

(** The exceptions the modelled functions can raise.  Those up to
    [BroadcastError], and [IntDigitsLimit], are Python [ValueError]s;
    the constructors keep apart the places that raise them. *)
Inductive exn : Type :=
| FloatValueError (text : string)
    (* float(text): could not convert string to float *)
| NoNumericalValues
    (* read_cmg_format_file: "No numerical values found in ..." *)
| Mismatch (active_cells porosity_values : nat)
    (* "Mismatch: {} active cells but {} porosity values" *)
| CellIdsOutOfRange (min_id max_id total_cells : Z)
    (* "Cell IDs out of range: {} to {} (should be 1 to {})" *)
| ZeroSizeReduction
    (* np.min / np.max of an empty array *)
| NegativeDimensions
    (* np.zeros of a negative length *)
| BroadcastError (n1 n2 : nat)
    (* operands could not be broadcast together *)
| IndexError (index : Z) (size : nat)
    (* index out of bounds in an indexed assignment *)
| IntDigitsLimit (digits : nat)
    (* int(text): "Exceeds the limit (4300 digits) for integer string
       conversion: value has {} digits" *)
| OverflowError
    (* [value] * count: cannot fit 'int' into an index-sized integer *)
| MemoryError.
    (* [value] * count: more items than an object can hold *)

Inductive result (A : Type) : Type :=
| Ok (a : A)
| Raise (e : exn).
Arguments Ok {A} a.
Arguments Raise {A} e.

Definition bind {A B : Type} (r : result A) (k : A -> result B) : result B :=
  match r with
  | Ok a => k a
  | Raise e => Raise e
  end.

Notation "x <- r ;; k" := (bind r (fun x => k))
  (at level 61, r at next level, right associativity).

(** ** Characters and strings, as Python's [str] methods treat them *)

Definition is_digit (c : ascii) : bool :=
  (48 <=? N_of_ascii c)%N && (N_of_ascii c <=? 57)%N.

(** [str.isspace] on ASCII: tab, line feed, vertical tab, form feed,
    carriage return, the four separators 28..31 and the space. *)
Definition is_space (c : ascii) : bool :=
  let n := N_of_ascii c in
  ((9 <=? n)%N && (n <=? 13)%N) || ((28 <=? n)%N && (n <=? 32)%N).

(** White space for [float]'s argument, which is trimmed with C's
    [isspace]: the separators 28..31 are not white space there. *)
Definition is_c_space (c : ascii) : bool :=
  let n := N_of_ascii c in
  ((9 <=? n)%N && (n <=? 13)%N) || (n =? 32)%N.

Definition is_empty (s : string) : bool :=
  match s with
  | EmptyString => true
  | String _ _ => false
  end.

(** [s.startswith(p)] *)
Fixpoint startswith (p s : string) : bool :=
  match p, s with
  | EmptyString, _ => true
  | String a p', String b s' => Ascii.eqb a b && startswith p' s'
  | String _ _, EmptyString => false
  end.

Fixpoint lstrip_by (sp : ascii -> bool) (s : string) : string :=
  match s with
  | EmptyString => EmptyString
  | String c s' => if sp c then lstrip_by sp s' else s
  end.

Fixpoint rstrip_by (sp : ascii -> bool) (s : string) : string :=
  match s with
  | EmptyString => EmptyString
  | String c s' =>
      let r := rstrip_by sp s' in
      if sp c && is_empty r then EmptyString else String c r
  end.

(** [s.strip()] *)
Definition strip (s : string) : string :=
  rstrip_by is_space (lstrip_by is_space s).

(** [s.split()]: the maximal runs of characters that are not white
    space.  [word] is the run being read, reversed. *)
Fixpoint string_rev_append (r s : string) : string :=
  match r with
  | EmptyString => s
  | String c r' => string_rev_append r' (String c s)
  end.

Fixpoint split_from (word : string) (s : string) : list string :=
  match s with
  | EmptyString =>
      if is_empty word then [] else [string_rev_append word EmptyString]
  | String c s' =>
      if is_space c then
        if is_empty word then split_from EmptyString s'
        else string_rev_append word EmptyString :: split_from EmptyString s'
      else split_from (String c word) s'
  end.

Definition split (s : string) : list string := split_from EmptyString s.

(** The longest prefix of [s] whose characters satisfy [p], and the rest. *)
Fixpoint span (p : ascii -> bool) (s : string) : string * string :=
  match s with
  | EmptyString => (EmptyString, EmptyString)
  | String c s' =>
      if p c then let (a, b) := span p s' in (String c a, b)
      else (EmptyString, s)
  end.

Fixpoint string_forallb (p : ascii -> bool) (s : string) : bool :=
  match s with
  | EmptyString => true
  | String c s' => p c && string_forallb p s'
  end.

(** ASCII lower case, for the case-insensitive words of [float]. *)
Definition lower_char (c : ascii) : ascii :=
  let n := N_of_ascii c in
  if (65 <=? n)%N && (n <=? 90)%N then ascii_of_N (n + 32) else c.

Fixpoint lower (s : string) : string :=
  match s with
  | EmptyString => EmptyString
  | String c s' => String (lower_char c) (lower s')
  end.

(** ** Decimal integers: [str(n)] and [int(s)] *)

Definition digit_char (d : N) : ascii := ascii_of_N (48 + d).
Definition digit_val (c : ascii) : N := (N_of_ascii c - 48)%N.

(** The decimal digits of [n], most significant first, put in front of
    [acc].  A number below [2 ^ fuel] has at most [fuel] digits. *)
Fixpoint digits_onto (fuel : nat) (n : N) (acc : string) : string :=
  match fuel with
  | O => acc
  | S fuel' =>
      let acc' := String (digit_char (n mod 10)) acc in
      if (n <? 10)%N then acc' else digits_onto fuel' (n / 10) acc'
  end.

(** [str(n)] for a non-negative integer. *)
Definition str_N (n : N) : string :=
  digits_onto (S (N.to_nat (N.log2 n))) n EmptyString.

Definition str_nat (n : nat) : string := str_N (N.of_nat n).

(** The value of a string of decimal digits read after [acc]. *)
Fixpoint digits_value (s : string) (acc : N) : N :=
  match s with
  | EmptyString => acc
  | String c s' => digits_value s' (10 * acc + digit_val c)
  end.

(** The longest text [int] converts (the default of
    [sys.int_info.default_max_str_digits]); leading zeros count. *)
Definition int_max_str_digits : N := 4300.

(** [int(s)] for [s] matching [\d+], the only strings it is applied to:
    the value, or the [ValueError] of a text with too many digits. *)
Definition python_int (s : string) : result N :=
  if (int_max_str_digits <? N.of_nat (String.length s))%N
  then Raise (IntDigitsLimit (String.length s))
  else Ok (digits_value s 0).

(** [sys.maxsize], the greatest index-sized integer. *)
Definition PY_SSIZE_T_MAX : N := 2 ^ 63 - 1.

(** The most items of eight bytes (the references of a list, the
    elements of a [float64] array) an object can hold. *)
Definition max_items : N := PY_SSIZE_T_MAX / 8.

(** A length that a list or a [float64] array can have. *)
Definition allocatable (n : nat) : Prop := (N.of_nat n <= max_items)%N.

(** [[value] * count]: the count has to be an index-sized integer, and
    the list one that can be allocated. *)
Definition list_repeat (value : float) (count : N) : result (list float) :=
  if (PY_SSIZE_T_MAX <? count)%N then Raise OverflowError
  else if (max_items <? count)%N then Raise MemoryError
  else Ok (repeat value (N.to_nat count)).

(** Exactly [k] decimal digits of [n], most significant first: the
    zero-padded rendering of [n mod 10 ^ k]. *)
Fixpoint fixed_digits (k : nat) (n : N) : string :=
  match k with
  | O => EmptyString
  | S k' => fixed_digits k' (n / 10) ++ String (digit_char (n mod 10)) EmptyString
  end.

(** ** Floating-point numbers *)

Definition is_finite (x : float) : bool := negb (is_nan x || is_infinity x).

(** [np.isclose(a, b, rtol, atol)]: NumPy's documented test
    [|a - b| <= atol + rtol * |b|] for a finite [b], and equality for
    the infinities; never true for a NaN. *)
Definition np_isclose (a b rtol atol : float) : bool :=
  ((abs (a - b) <=? atol + rtol * abs b)%float && is_finite b) || (a =? b)%float.

(** The value of [atol] when a call does not pass it. *)
Definition default_atol : float := 1e-8%float.

(** [num / den] rounded to the nearest integer, ties to the even one. *)
Definition round_half_even_div (num den : N) : N :=
  let q := (num / den)%N in
  let r := (num mod den)%N in
  match (2 * r ?= den)%N with
  | Lt => q
  | Gt => (q + 1)%N
  | Eq => if N.even q then q else (q + 1)%N
  end.

(** [|x| * 10^6] rounded to the nearest integer (ties to even), computed
    exactly from the mantissa and exponent of a finite [x]. *)
Definition scaled6 (x : float) : N :=
  match Prim2SF x with
  | S754_finite _ m e =>
      let num := (Npos m * 1000000)%N in
      match e with
      | Z0 => num
      | Zpos p => (num * 2 ^ Npos p)%N
      | Zneg p => round_half_even_div num (2 ^ Npos p)
      end
  | _ => 0%N
  end.

(** [f"{x:.6f}"]: correctly rounded to six fractional digits. *)
Definition format_6f (x : float) : string :=
  if is_nan x then "nan"
  else
    let sign := if get_sign x then "-" else "" in
    if is_infinity x then sign ++ "inf"
    else
      let n := scaled6 x in
      sign ++ str_N (n / 1000000) ++ "." ++ fixed_digits 6 (n mod 1000000).

(** The binary64 number nearest to [(-1)^neg * m * 10^e10] (ties to
    even, overflow to infinity, gradual underflow). *)
Definition decimal_to_float (neg : bool) (m : N) (e10 : Z) : float :=
  if (m =? 0)%N then (if neg then neg_zero else zero)
  else
    let num := if (0 <=? e10)%Z then (Z.of_N m * 10 ^ e10)%Z else Z.of_N m in
    let den := if (0 <=? e10)%Z then 1%Z else (10 ^ (- e10))%Z in
    (* fl = floor (log2 (num / den)) *)
    let k := (Z.log2 num - Z.log2 den)%Z in
    let fl :=
      if (den * 2 ^ Z.max 0 k <=? num * 2 ^ Z.max 0 (- k))%Z then k
      else (k - 1)%Z in
    let e2 := Z.max (fl - 52) (-1074) in
    let mant :=
      round_half_even_div (Z.to_N (num * 2 ^ Z.max 0 (- e2)))
                          (Z.to_N (den * 2 ^ Z.max 0 e2)) in
    match mant with
    | N0 => if neg then neg_zero else zero
    | Npos p => SF2Prim (S754_finite neg p e2)
    end.

Definition strip_sign (s : string) : bool * string :=
  match s with
  | String "-" r => (true, r)
  | String "+" r => (false, r)
  | _ => (false, s)
  end.

(** Underscores in a numeric literal: allowed only between two digits,
    and dropped.  [prev] is the character before [s]. *)
Fixpoint remove_underscores (prev : ascii) (s : string) : option string :=
  match s with
  | EmptyString => if Ascii.eqb prev "_" then None else Some EmptyString
  | String c s' =>
      if Ascii.eqb c "_" then
        if is_digit prev then remove_underscores c s' else None
      else if Ascii.eqb prev "_" && negb (is_digit c) then None
      else option_map (String c) (remove_underscores c s')
  end.

(** The exponent part of a decimal literal: nothing, or [e] or [E], an
    optional sign and at least one digit. *)
Definition parse_exponent (s : string) : option Z :=
  match s with
  | EmptyString => Some 0%Z
  | String c r =>
      if Ascii.eqb (lower_char c) "e" then
        let (neg, ds) := strip_sign r in
        if is_empty ds || negb (string_forallb is_digit ds) then None
        else
          let e := Z.of_N (digits_value ds 0) in
          Some (if neg then (- e)%Z else e)
      else None
  end.

(** A decimal literal: digits, an optional point and digits, at least
    one digit in all, and an optional exponent. *)
Definition parse_decimal (neg : bool) (body : string) : option float :=
  let (ip, r1) := span is_digit body in
  let (fp, r2) :=
    match r1 with
    | String "." r => span is_digit r
    | _ => (EmptyString, r1)
    end in
  if is_empty ip && is_empty fp then None
  else
    match parse_exponent r2 with
    | Some e =>
        Some (decimal_to_float neg (digits_value (ip ++ fp) 0)
                (e - Z.of_nat (String.length fp)))
    | None => None
    end.

(** [float(text)]; [None] stands for the [ValueError] it raises. *)
Definition python_float (text : string) : option float :=
  match
    remove_underscores Ascii.zero
      (rstrip_by is_c_space (lstrip_by is_c_space text))
  with
  | None => None
  | Some s =>
      let (neg, body) := strip_sign s in
      let w := lower body in
      if String.eqb w "inf" || String.eqb w "infinity" then
        Some (if neg then neg_infinity else infinity)
      else if String.eqb w "nan" then Some nan
      else parse_decimal neg body
  end.

(** ** The encoder: [compress_array_to_cmg_format] *)

Definition rtol : float := 1e-10%float.

(** The test of lines 25 and 29: [np.isclose(x, y, rtol=1e-10)]. *)
Definition isclose (x y : float) : bool := np_isclose x y rtol default_atol.

(** The inner loop (lines 25-26): [count] grows while [array[i + count]]
    exists and is close to [value].  [None] when the fuel runs out. *)
Fixpoint count_run (fuel : nat) (array : list float) (i : nat)
    (value : float) (count : nat) : option nat :=
  match fuel with
  | O => None
  | S fuel' =>
      if (i + count <? List.length array)%nat
         && isclose (nth (i + count) array zero) value
      then count_run fuel' array i value (count + 1)
      else Some count
  end.

(** Lines 29-38: the token of a run. *)
Definition make_token (value : float) (count : nat) : string :=
  if isclose value zero then
    if (count =? 1)%nat then "0" else str_nat count ++ "*0"
  else
    if (count =? 1)%nat then format_6f value
    else str_nat count ++ "*" ++ format_6f value.

(** Lines 41-48: a token joins the current line or starts a new one.
    The state is [(current_line, compressed_lines)]. *)
Definition add_token (max_line_length : Z) (st : string * list string)
    (token : string) : string * list string :=
  let (current_line, compressed_lines) := st in
  if negb (is_empty current_line)
     && (max_line_length <? Z.of_nat (String.length (current_line ++ " " ++ token)))%Z
  then (token, (compressed_lines ++ [current_line])%list)
  else if negb (is_empty current_line)
       then ((current_line ++ " " ++ token)%string, compressed_lines)
       else (token, compressed_lines).

(** The outer loop (lines 20-50).  [None] when the fuel runs out. *)
Fixpoint compress_loop (fuel : nat) (array : list float) (max_line_length : Z)
    (i : nat) (st : string * list string) : option (string * list string) :=
  match fuel with
  | O => None
  | S fuel' =>
      if (i <? List.length array)%nat then
        let value := nth i array zero in
        match count_run (List.length array) array i value 1 with
        | None => None
        | Some count =>
            let token := make_token value count in
            compress_loop fuel' array max_line_length (i + count)
              (add_token max_line_length st token)
        end
      else Some st
  end.

Definition compress_array_to_cmg_format (array : list float)
    (max_line_length : Z) : option (list string) :=
  match
    compress_loop (S (List.length array)) array max_line_length 0 (EmptyString, [])
  with
  | None => None
  | Some (current_line, compressed_lines) =>
      Some (if negb (is_empty current_line)
            then (compressed_lines ++ [current_line])%list
            else compressed_lines)
  end.

(** What [generate_full_porosity_data] writes (lines 143-146): the header
    and the compressed lines, each followed by a line feed; reading the
    file back yields these lines. *)
Definition newline : string := String (ascii_of_N 10) EmptyString.

Definition header : string := "**FULL_POROSITY_ALL".

Definition written_lines (hd : string) (compressed_lines : list string)
    : list string :=
  map (fun line => (line ++ newline)%string) (hd :: compressed_lines).

(** ** The decoders *)

(** An optional sign and an optional point, as the pattern takes them. *)
Definition take_sign (s : string) : string * string :=
  match s with
  | String "+" r => ("+", r)
  | String "-" r => ("-", r)
  | _ => (EmptyString, s)
  end.

Definition take_dot (s : string) : string * string :=
  match s with
  | String "." r => (".", r)
  | _ => (EmptyString, s)
  end.

(** [re.match] with the pattern of line 268: group 1 is one or more
    digits, then a star, then group 2: an optional sign, digits, an
    optional point, digits (each of the last three possibly empty).  The
    match is anchored at the start of the token only.  Every part after
    the star is optional and greedy, so the first attempt of the matcher
    succeeds and the groups are the longest ones.  The result is groups 1
    and 2. *)
Definition re_match_count_run (token : string) : option (string * string) :=
  let (g1, r1) := span is_digit token in
  if is_empty g1 then None
  else
    match r1 with
    | String "*" r2 =>
        let (sgn, r3) := take_sign r2 in
        let (d1, r4) := span is_digit r3 in
        let (dot, r5) := take_dot r4 in
        let (d2, _) := span is_digit r5 in
        Some (g1, (sgn ++ d1 ++ dot ++ d2)%string)
    | _ => None
    end.

(** The body of the loop over the tokens of a line (lines 266-280, and
    lines 32-46 of the reader): [float] is guarded by [try] in the second
    branch only.  In the first branch [int], [float] and the repetition
    can raise, in this order. *)
Definition decode_token (values : list float) (token : string)
    : result (list float) :=
  match re_match_count_run token with
  | Some (g1, g2) =>
      count <- python_int g1 ;;
      match python_float g2 with
      | Some value =>
          copies <- list_repeat value count ;;
          Ok (values ++ copies)%list
      | None => Raise (FloatValueError g2)
      end
  | None =>
      match python_float token with
      | Some value => Ok (values ++ [value])%list
      | None => Ok values
      end
  end.

(** The exceptions a count run can raise. *)
Definition count_run_exn (e : exn) : Prop :=
  match e with
  | FloatValueError _ | IntDigitsLimit _ | OverflowError | MemoryError => True
  | _ => False
  end.

Fixpoint decode_tokens (values : list float) (tokens : list string)
    : result (list float) :=
  match tokens with
  | [] => Ok values
  | token :: tokens' =>
      values' <- decode_token values token ;;
      decode_tokens values' tokens'
  end.

(** The loop over the lines of the file. *)
Fixpoint decode_lines (values : list float) (lines : list string)
    : result (list float) :=
  match lines with
  | [] => Ok values
  | line :: lines' =>
      let line := strip line in
      if is_empty line || startswith "**" line then decode_lines values lines'
      else
        values' <- decode_tokens values (split line) ;;
        decode_lines values' lines'
  end.

(** [decompress_cmg_format_to_array], on the lines of an existing file. *)
Definition decompress_cmg_format_to_array (lines : list string)
    : result (list float) :=
  decode_lines [] lines.

(** [read_cmg_format_file], on the lines of an existing file: the same
    loop, then the test of line 48. *)
Definition read_cmg_format_file (lines : list string) : result (list float) :=
  values <- decode_lines [] lines ;;
  match values with
  | [] => Raise NoNumericalValues
  | _ :: _ => Ok values
  end.

(** ** The scatter: [generate_full_porosity] *)

(** [np.min] and [np.max] of an integer array. *)
Definition np_min (a : list Z) : result Z :=
  match a with
  | [] => Raise ZeroSizeReduction
  | x :: r => Ok (fold_left Z.min r x)
  end.

Definition np_max (a : list Z) : result Z :=
  match a with
  | [] => Raise ZeroSizeReduction
  | x :: r => Ok (fold_left Z.max r x)
  end.

(** [np.zeros(n, dtype=np.float64)] *)
Definition np_zeros (n : Z) : result (list float) :=
  if (n <? 0)%Z then Raise NegativeDimensions
  else Ok (repeat zero (Z.to_nat n)).

(** [a[i] = v] for [i] within the array. *)
Fixpoint list_set (i : nat) (v : float) (a : list float) : list float :=
  match a, i with
  | [], _ => []
  | _ :: r, O => v :: r
  | x :: r, S i' => x :: list_set i' v r
  end.

(** [a[indices] = vals] for an index array and as many values: the
    writes happen in order, a negative index counts from the end, and an
    index outside the array raises [IndexError]. *)
Fixpoint put_each (a : list float) (indices : list Z) (vals : list float)
    : result (list float) :=
  match indices, vals with
  | k :: indices', v :: vals' =>
      let n := Z.of_nat (List.length a) in
      if (k <? - n)%Z || (n <=? k)%Z then Raise (IndexError k (List.length a))
      else
        put_each (list_set (Z.to_nat (if (k <? 0)%Z then k + n else k)%Z) v a)
          indices' vals'
  | _, _ => Ok a
  end.

(** The same with NumPy's check of the shapes: a single value is
    broadcast to every index, any other difference of lengths raises. *)
Definition np_setitem (a : list float) (indices : list Z) (vals : list float)
    : result (list float) :=
  if (List.length vals =? List.length indices)%nat then put_each a indices vals
  else
    match vals with
    | [v] => put_each a indices (repeat v (List.length indices))
    | _ => Raise (BroadcastError (List.length indices) (List.length vals))
    end.

(** Lines 43-57 of [generate_full_porosity], on the two loaded arrays:
    the array the function builds, or the exception it raises. *)
Definition full_porosity_array (active_cell_ids : list Z)
    (porosity_values : list float) (total_cells : Z) : result (list float) :=
  if negb (List.length active_cell_ids =? List.length porosity_values)%nat then
    Raise (Mismatch (List.length active_cell_ids) (List.length porosity_values))
  else
    min_id <- np_min active_cell_ids ;;
    max_id <- np_max active_cell_ids ;;
    if (min_id <? 1)%Z || (total_cells <? max_id)%Z then
      Raise (CellIdsOutOfRange min_id max_id total_cells)
    else
      full_porosity <- np_zeros total_cells ;;
      np_setitem full_porosity (map (fun id => id - 1)%Z active_cell_ids)
        porosity_values.

(** The outcome of a call: what it returns or raises, and what [np.save]
    (line 60) has written to the output file, if it was reached. *)
Record outcome : Type := {
  returned : result (list float);
  saved : option (list float)
}.

Definition generate_full_porosity (active_cell_ids : list Z)
    (porosity_values : list float) (total_cells : Z) : outcome :=
  match full_porosity_array active_cell_ids porosity_values total_cells with
  | Ok full_porosity =>
      {| returned := Ok full_porosity; saved := Some full_porosity |}
  | Raise e => {| returned := Raise e; saved := None |}
  end.

(** ** The comparator: [compare_arrays] *)

(** The dictionaries [compare_arrays] returns: the one with an ['error']
    key, and the one with the statistics (['different_indices'] is
    present in the last case only). *)
Inductive comparison : Type :=
| SizeError (identical : bool) (error : string) (size1 size2 : nat)
| Compared (identical exact_match tolerance_match : bool)
    (max_difference mean_difference : float) (different_elements : nat)
    (different_indices : option (list nat)).

(** [np.array_equal] on one-dimensional arrays. *)
Fixpoint all_eqb (a b : list float) : bool :=
  match a, b with
  | [], [] => true
  | x :: a', y :: b' => (x =? y)%float && all_eqb a' b'
  | _, _ => false
  end.

Definition np_array_equal (a b : list float) : bool :=
  (List.length a =? List.length b)%nat && all_eqb a b.

(** [a - b] on one-dimensional arrays: element-wise for equal lengths, a
    one-element array is broadcast, other shapes raise. *)
Definition np_subtract (a b : list float) : result (list float) :=
  if (List.length a =? List.length b)%nat then
    Ok (map (fun p => (fst p - snd p)%float) (combine a b))
  else
    match a, b with
    | [x], _ => Ok (map (fun y => (x - y)%float) b)
    | _, [y] => Ok (map (fun x => (x - y)%float) a)
    | _, _ => Raise (BroadcastError (List.length a) (List.length b))
    end.

(** [np.max] of a float array: a NaN propagates. *)
Definition fmax (x y : float) : float :=
  if is_nan x then x else if is_nan y then y
  else if (x <? y)%float then y else x.

Definition np_fmax (a : list float) : result float :=
  match a with
  | [] => Raise ZeroSizeReduction
  | x :: r => Ok (fold_left fmax r x)
  end.

(** [np.where(differences > tolerance)[0]], counted from [start]. *)
Fixpoint where_greater (tolerance : float) (start : nat) (d : list float)
    : list nat :=
  match d with
  | [] => []
  | x :: d' =>
      if (tolerance <? x)%float
      then start :: where_greater tolerance (S start) d'
      else where_greater tolerance (S start) d'
  end.

Section Comparator.

(** [np.mean] of a float array.  NumPy sums pairwise, in an order that
    depends on the length; the rounding of that sum is not modelled,
    the function is a parameter. *)
Variable np_mean : list float -> float.

(** [compare_arrays], without its printing.  The [np.min], [np.max]
    and [np.mean] of lines 230-241 are printed for arrays that are not
    empty, and raise nothing. *)
Definition compare_arrays (array1 array2 : list float) (tolerance : float)
    (file1_name file2_name : string) : result comparison :=
  if (List.length array1 =? 0)%nat then
    Ok (SizeError false (file1_name ++ " is empty") 0 (List.length array2))
  else if (List.length array2 =? 0)%nat then
    Ok (SizeError false (file2_name ++ " is empty") (List.length array1) 0)
  else if negb (List.length array1 =? List.length array2)%nat then
    Ok (SizeError false "Different array sizes"
          (List.length array1) (List.length array2))
  else if np_array_equal array1 array2 then
    Ok (Compared true true true zero zero 0 None)
  else
    d <- np_subtract array1 array2 ;;
    let differences := map abs d in
    max_diff <- np_fmax differences ;;
    let mean_diff := np_mean differences in
    let diff_indices := where_greater tolerance 0 differences in
    let different_elements := List.length diff_indices in
    if (different_elements =? 0)%nat then
      Ok (Compared true false true max_diff mean_diff 0 None)
    else
      Ok (Compared false false false max_diff mean_diff different_elements
            (Some diff_indices)).

End Comparator.

(** ** The encoder seen on lists

    The two loops of the encoder walk the array by index.  The
    definitions below describe the same computation on the part of the
    array that is left; [compress_loop_tokens] relates the two. *)

(** How many leading elements of [rest] are close to [value]. *)
Fixpoint run_length (value : float) (rest : list float) : nat :=
  match rest with
  | [] => 0
  | x :: rest' => if isclose x value then S (run_length value rest') else 0
  end.

(** The runs the encoder finds: the first element of each and its
    length.  There are at most as many runs as elements. *)
Fixpoint runs_from (fuel : nat) (l : list float) : list (float * nat) :=
  match fuel, l with
  | S fuel', value :: rest =>
      let k := run_length value rest in
      (value, S k) :: runs_from fuel' (skipn k rest)
  | _, _ => []
  end.

Definition runs (array : list float) : list (float * nat) :=
  runs_from (List.length array) array.

(** The tokens in the order the encoder creates them. *)
Definition cmg_tokens (array : list float) : list string :=
  map (fun r => make_token (fst r) (snd r)) (runs array).

(** The tokens of a line put together as line 46 does. *)
Fixpoint join (tokens : list string) : string :=
  match tokens with
  | [] => EmptyString
  | [t] => t
  | t :: tokens' => (t ++ " " ++ join tokens')%string
  end.

(** What a decoder reads back from the token of a run that starts with
    [value]: zero for the zero token, and otherwise the decimal number
    with six fractional digits that was printed. *)
Definition reread (value : float) : float :=
  if isclose value zero then zero
  else decimal_to_float (get_sign value) (scaled6 value) (-6).

Definition expand (rs : list (float * nat)) : list float :=
  flat_map (fun r => repeat (fst r) (snd r)) rs.

(** [span] stops exactly where the accepted characters stop. *)
Definition stops (p : ascii -> bool) (s : string) : Prop :=
  match s with
  | EmptyString => True
  | String c _ => p c = false
  end.

(** A word: not empty and without white space. *)
Definition is_word (s : string) : bool :=
  negb (is_empty s) && string_forallb (fun c => negb (is_space c)) s.

(** ** Numerals

    The texts that group 2 of the count-run pattern can hold and that
    [float] accepts: a sign or none, digits, a point or none, digits, with
    a digit somewhere.  Without a point there is no fractional part. *)
Definition is_sign (s : string) : Prop := s = "" \/ s = "+" \/ s = "-".

Record numeral (sgn ip dot fp : string) : Prop := {
  numeral_sign : is_sign sgn;
  numeral_ip : string_forallb is_digit ip = true;
  numeral_fp : string_forallb is_digit fp = true;
  numeral_dot : dot = "." \/ (dot = "" /\ fp = "");
  numeral_digit : is_empty ip && is_empty fp = false
}.

(** The characters after a numeral do not continue it: no digit, and no
    point if the numeral has none. *)
Definition ends_numeral (dot rest : string) : Prop :=
  match rest with
  | EmptyString => True
  | String c _ => is_digit c = false /\ (dot = "" -> c <> "."%char)
  end.

(** The value [float] gives to a numeral. *)
Definition numeral_value (sgn ip fp : string) : float :=
  decimal_to_float (String.eqb sgn "-") (digits_value (ip ++ fp) 0)
    (- Z.of_nat (String.length fp)).

(** ** Lines

    A line of the document is a segment of the token sequence put
    together by [join].  A segment fits the width [w] when its line is
    not longer than [w] or it is a single token. *)
Definition fits (w : Z) (seg : list string) : Prop :=
  seg <> []
  /\ ((Z.of_nat (String.length (join seg)) <= w)%Z \/ exists t, seg = [t]).

(** The state of the line loop after the tokens [done]: the closed lines
    and the current line are segments that fit, in order. *)
Inductive wrap_inv (w : Z) (done : list string)
    : string * list string -> Prop :=
| Wrap_inv (segs : list (list string)) (cur_seg : list string) :
    (List.concat segs ++ cur_seg)%list = done ->
    Forall (fits w) segs ->
    cur_seg = [] \/ fits w cur_seg ->
    wrap_inv w done (join cur_seg, map join segs).

(** The lines of a call, from the final state of the loop (lines 53-54). *)
Definition close_lines (st : string * list string) : list string :=
  let (current_line, compressed_lines) := st in
  if negb (is_empty current_line)
  then (compressed_lines ++ [current_line])%list
  else compressed_lines.

(** The first character of a token of the encoder is not a star, so that
    no line of tokens is taken for a comment. *)
Definition head_not_star (t : string) : bool :=
  match t with
  | EmptyString => false
  | String c _ => negb (Ascii.eqb c "*")
  end.

(** ** The counter: [count_cmg_data_points_accurate]

    count_cmg_data_accurate.py, lines 6-57.  The loop is the one of the
    decoders, but a count run adds its count without converting its
    value and without building a list: only [int] can raise.  The whole
    loop is in a [try] that answers 0 to any exception (lines 53-55),
    as it does for a file that does not exist ([None]). *)
Definition count_token (data_points : nat) (token : string) : result nat :=
  match re_match_count_run token with
  | Some (g1, _) =>
      count <- python_int g1 ;;
      Ok (data_points + N.to_nat count)
  | None =>
      match python_float token with
      | Some _ => Ok (data_points + 1)
      | None => Ok data_points
      end
  end.

Fixpoint count_tokens (data_points : nat) (tokens : list string)
    : result nat :=
  match tokens with
  | [] => Ok data_points
  | token :: tokens' =>
      data_points' <- count_token data_points token ;;
      count_tokens data_points' tokens'
  end.

Fixpoint count_lines (data_points : nat) (lines : list string)
    : result nat :=
  match lines with
  | [] => Ok data_points
  | line :: lines' =>
      let line := strip line in
      if is_empty line || startswith "**" line then
        count_lines data_points lines'
      else
        data_points' <- count_tokens data_points (split line) ;;
        count_lines data_points' lines'
  end.

Definition count_cmg_data_points_accurate (file : option (list string))
    : nat :=
  match file with
  | None => 0
  | Some lines =>
      match count_lines 0 lines with
      | Ok data_points => data_points
      | Raise _ => 0
      end
  end.

(** ** The other readers of compare_files_original.py *)

(** ASCII upper case. *)
Definition upper_char (c : ascii) : ascii :=
  let n := N_of_ascii c in
  if (97 <=? n)%N && (n <=? 122)%N then ascii_of_N (n - 32) else c.

Fixpoint upper (s : string) : string :=
  match s with
  | EmptyString => EmptyString
  | String c s' => String (upper_char c) (upper s')
  end.

Definition is_slash (c : ascii) : bool := Ascii.eqb c "/".

(** [read_gdecl_format_file] (lines 53-110): nothing is read before the
    first line that starts with a slash; after it, every line that does
    not start with a slash is split, the slashes at the end of each token
    are removed (line 90) and the token is decoded as in the CMG
    reader. *)
Fixpoint gdecl_lines (in_data_section : bool) (values : list float)
    (lines : list string) : result (list float) :=
  match lines with
  | [] => Ok values
  | line :: lines' =>
      let line := strip line in
      if is_empty line then gdecl_lines in_data_section values lines'
      else if startswith "/" (upper line) then gdecl_lines true values lines'
      else if in_data_section then
        values' <-
          decode_tokens values (map (rstrip_by is_slash) (split line)) ;;
        gdecl_lines in_data_section values' lines'
      else gdecl_lines in_data_section values lines'
  end.

Definition read_gdecl_format_file (lines : list string)
    : result (list float) :=
  values <- gdecl_lines false [] lines ;;
  match values with
  | [] => Raise NoNumericalValues
  | _ :: _ => Ok values
  end.

(** [read_text_file] (lines 133-161): one number per line; a line that
    [float] rejects is skipped with a warning. *)
Fixpoint text_lines (values : list float) (lines : list string)
    : list float :=
  match lines with
  | [] => values
  | line :: lines' =>
      let line := strip line in
      if is_empty line then text_lines values lines'
      else
        match python_float line with
        | Some value => text_lines (values ++ [value])%list lines'
        | None => text_lines values lines'
        end
  end.

Definition read_text_file (lines : list string) : result (list float) :=
  match text_lines [] lines with
  | [] => Raise NoNumericalValues
  | value :: values => Ok (value :: values)
  end.

(** ** The generators of generate_full_porosity_original.py *)

(** What a call leaves behind: the value it returns or the exception it
    raises, the array saved by [np.save] and the lines of the [.dat]
    file, when they were written. *)
Record files (A : Type) : Type := {
  call_result : A;
  npy_file : option (list float);
  dat_file : option (list string)
}.
Arguments call_result {A} f.
Arguments npy_file {A} f.
Arguments dat_file {A} f.


(** The summary dictionary of [generate_full_porosity_data]; the three
    keys of the compressed file are present with [use_compression]. *)
Record summary : Type := {
  total_cells_key : Z;
  active_cells : nat;
  inactive_cells : Z;
  active_cell_percentage : float;
  active_porosity_mean : float;
  active_porosity_min : float;
  active_porosity_max : float;
  full_porosity_mean : float;
  full_porosity_min : float;
  full_porosity_max : float;
  output_file_key : string;
  compressed_file : option string;
  compression_ratio : option float;
  compressed_lines_key : option nat
}.

(** The exceptions of [generate_full_porosity_data]: those of the
    validation and of the array, and the division by zero. *)
Inductive data_exn : Type :=
| Inherited (e : exn)
| ZeroDivisionError.

Section Generator.

(** NumPy's [mean], [min] and [max] of a float array that is not empty,
    the quotient of two integers as a float, and the two operations on
    paths are parameters: their results are stored in the summary and
    decide nothing. *)
Variable np_mean : list float -> float.
Variable np_amin : list float -> float.
Variable np_amax : list float -> float.
Variable true_div : Z -> Z -> float.
Variable path_str : string -> string.
Variable with_suffix_dat : string -> string.

(** [generate_full_porosity_data] (lines 58-192), without its printing.
    [None] when the encoder runs out of fuel. *)
Definition generate_full_porosity_data (active_cell_ids : list Z)
    (porosity_values : list float) (output_file : string) (total_cells : Z)
    (use_compression : bool) : option (files (sum data_exn summary)) :=
  match full_porosity_array active_cell_ids porosity_values total_cells with
  | Raise e =>
      Some {| call_result := inl (Inherited e);
              npy_file := None; dat_file := None |}
  | Ok full_porosity =>
      let active_count := List.length active_cell_ids in
      let inactive_count := (total_cells - Z.of_nat active_count)%Z in
      let stats (ratio : option float) (lines : option nat) :=
        if (total_cells =? 0)%Z then inl ZeroDivisionError
        else
          inr {| total_cells_key := total_cells;
                 active_cells := active_count;
                 inactive_cells := inactive_count;
                 active_cell_percentage :=
                   (true_div (Z.of_nat active_count) total_cells * 100)%float;
                 active_porosity_mean := np_mean porosity_values;
                 active_porosity_min := np_amin porosity_values;
                 active_porosity_max := np_amax porosity_values;
                 full_porosity_mean := np_mean full_porosity;
                 full_porosity_min := np_amin full_porosity;
                 full_porosity_max := np_amax full_porosity;
                 output_file_key := path_str output_file;
                 compressed_file :=
                   if use_compression
                   then Some (path_str (with_suffix_dat output_file))
                   else None;
                 compression_ratio := ratio;
                 compressed_lines_key := lines |} in
      if use_compression then
        match compress_array_to_cmg_format full_porosity 80 with
        | None => None
        | Some compressed_lines =>
            let written := Some (written_lines header compressed_lines) in
            if (List.length compressed_lines =? 0)%nat then
              Some {| call_result := inl ZeroDivisionError;
                      npy_file := Some full_porosity; dat_file := written |}
            else
              Some {| call_result :=
                        stats
                          (Some (true_div (Z.of_nat (List.length full_porosity))
                                   (Z.of_nat (List.length compressed_lines))))
                          (Some (List.length compressed_lines));
                      npy_file := Some full_porosity; dat_file := written |}
        end
      else
        Some {| call_result := stats None None;
                npy_file := Some full_porosity; dat_file := None |}
  end.

End Generator.

(** ** The tokens of a document

    The tokens the loops of the decoders and of the counter see, in
    order: those of the lines that are neither blank nor comments. *)
Definition data_tokens (lines : list string) : list string :=
  flat_map
    (fun line =>
       let line := strip line in
       if is_empty line || startswith "**" line then [] else split line)
    lines.


(** ** Line breaks

    A line break is needed when the first token of the next line would
    have made the line longer than the width [w] (the test of line 41). *)
Fixpoint needed_breaks (w : Z) (segs : list (list string)) : Prop :=
  match segs with
  | [] => True
  | seg :: rest =>
      match rest with
      | (t :: _) :: _ =>
          (w < Z.of_nat (String.length (join seg ++ " " ++ t)))%Z
          /\ needed_breaks w rest
      | _ => True
      end
  end.

(** The closed lines together with the current one, if it has a token. *)
Definition with_current (segs : list (list string)) (cur_seg : list string)
    : list (list string) :=
  match cur_seg with
  | [] => segs
  | _ :: _ => (segs ++ [cur_seg])%list
  end.

(** The state of the line loop after the tokens [done]: every break so
    far was needed, and there is a closed line only after a first
    token. *)
Inductive greedy_inv (w : Z) (done : list string)
    : string * list string -> Prop :=
| Greedy_inv (segs : list (list string)) (cur_seg : list string) :
    (List.concat segs ++ cur_seg)%list = done ->
    Forall (fun seg => seg <> []) segs ->
    (cur_seg = [] -> segs = []) ->
    needed_breaks w (with_current segs cur_seg) ->
    greedy_inv w done (join cur_seg, map join segs).

(** * Properties *)

(** ** Strings *)

Lemma sapp_assoc (a b c : string) : ((a ++ b) ++ c = a ++ (b ++ c))%string.
Proof. induction a as [|x a IH]; simpl; [reflexivity | now rewrite IH]. Qed.

Lemma sapp_nil_r (a : string) : (a ++ "")%string = a.
Proof. induction a as [|x a IH]; simpl; [reflexivity | now rewrite IH]. Qed.

Lemma slength_app (a b : string) :
  String.length (a ++ b) = String.length a + String.length b.
Proof. induction a as [|x a IH]; simpl; [reflexivity | now rewrite IH]. Qed.

Lemma is_empty_app (a b : string) :
  is_empty (a ++ b) = is_empty a && is_empty b.
Proof. destruct a; reflexivity. Qed.

Lemma forallb_sapp (p : ascii -> bool) (a b : string) :
  string_forallb p (a ++ b) = string_forallb p a && string_forallb p b.
Proof.
  induction a as [|x a IH]; simpl; [reflexivity |].
  now rewrite IH, andb_assoc.
Qed.

Lemma forallb_impl (p q : ascii -> bool) (s : string) :
  (forall c, p c = true -> q c = true) ->
  string_forallb p s = true -> string_forallb q s = true.
Proof.
  intros Hpq. induction s as [|x s IH]; simpl; [reflexivity |].
  intros H. apply andb_true_iff in H as [H1 H2].
  now rewrite (Hpq _ H1), IH.
Qed.

Lemma span_app (p : ascii -> bool) (a b : string) :
  string_forallb p a = true -> stops p b -> span p (a ++ b) = (a, b).
Proof.
  intros Ha Hb. induction a as [|x a IH]; simpl in *.
  - destruct b as [|c b]; [reflexivity |]. simpl in *. now rewrite Hb.
  - apply andb_true_iff in Ha as [Hx Ha]. now rewrite Hx, IH.
Qed.

Lemma span_all (p : ascii -> bool) (a : string) :
  string_forallb p a = true -> span p a = (a, EmptyString).
Proof.
  intros Ha. rewrite <- (sapp_nil_r a) at 1. now apply span_app.
Qed.

Lemma span_stops (p : ascii -> bool) (s : string) :
  stops p s -> span p s = (EmptyString, s).
Proof. intros H. now apply (span_app p EmptyString s). Qed.

(** *** Stripping *)

Lemma lstrip_by_id (sp : ascii -> bool) (s : string) :
  stops sp s -> lstrip_by sp s = s.
Proof. destruct s as [|c s]; simpl; [reflexivity |]. now intros ->. Qed.

Lemma rstrip_by_spaces (sp : ascii -> bool) (s : string) :
  string_forallb sp s = true -> rstrip_by sp s = EmptyString.
Proof.
  induction s as [|c s IH]; simpl; [reflexivity |].
  intros H. apply andb_true_iff in H as [Hc Hs].
  now rewrite (IH Hs), Hc.
Qed.

Lemma rstrip_by_app_spaces (sp : ascii -> bool) (a b : string) :
  string_forallb sp b = true ->
  rstrip_by sp (a ++ b) = rstrip_by sp a.
Proof.
  intros Hb. induction a as [|c a IH]; simpl.
  - now apply rstrip_by_spaces.
  - now rewrite IH.
Qed.

Lemma rstrip_by_clean (sp : ascii -> bool) (s : string) :
  string_forallb (fun c => negb (sp c)) s = true -> rstrip_by sp s = s.
Proof.
  induction s as [|c s IH]; simpl; [reflexivity |].
  intros H. apply andb_true_iff in H as [Hc Hs].
  rewrite (IH Hs). apply negb_true_iff in Hc. now rewrite Hc.
Qed.

(** *** Splitting *)

Lemma rev_append_rev_append (t a b : string) :
  string_rev_append (string_rev_append t a) b
  = string_rev_append a (t ++ b).
Proof.
  revert a b. induction t as [|c t IH]; intros a b; simpl; [reflexivity |].
  now rewrite IH.
Qed.

Lemma is_empty_rev_append (t w : string) :
  is_empty (string_rev_append t w) = is_empty t && is_empty w.
Proof.
  revert w. induction t as [|c t IH]; intros w; simpl; [reflexivity |].
  rewrite IH. simpl. now rewrite andb_false_r.
Qed.

Lemma split_from_clean (t w rest : string) :
  string_forallb (fun c => negb (is_space c)) t = true ->
  split_from w (t ++ rest) = split_from (string_rev_append t w) rest.
Proof.
  revert w. induction t as [|c t IH]; intros w H; simpl in *; [reflexivity |].
  apply andb_true_iff in H as [Hc Ht]. apply negb_true_iff in Hc.
  now rewrite Hc, IH.
Qed.

Lemma is_word_inv (t : string) :
  is_word t = true ->
  is_empty t = false
  /\ string_forallb (fun c => negb (is_space c)) t = true.
Proof.
  unfold is_word. intros H. apply andb_true_iff in H as [H1 H2].
  now apply negb_true_iff in H1.
Qed.

Lemma split_word (t : string) : is_word t = true -> split t = [t].
Proof.
  intros H. apply is_word_inv in H as [Hne Hc]. unfold split.
  rewrite <- (sapp_nil_r t) at 1. rewrite split_from_clean by assumption.
  simpl. rewrite is_empty_rev_append, Hne. simpl.
  rewrite rev_append_rev_append. simpl. now rewrite sapp_nil_r.
Qed.

Lemma split_word_space (t rest : string) :
  is_word t = true ->
  split (t ++ " " ++ rest) = t :: split rest.
Proof.
  intros H. apply is_word_inv in H as [Hne Hc]. unfold split.
  rewrite split_from_clean by assumption. simpl.
  rewrite is_empty_rev_append, Hne. simpl.
  rewrite rev_append_rev_append. simpl. now rewrite sapp_nil_r.
Qed.

Lemma split_join (tokens : list string) :
  Forall (fun t => is_word t = true) tokens -> split (join tokens) = tokens.
Proof.
  induction 1 as [|t tokens Ht Hts IH]; [reflexivity |].
  destruct tokens as [|t' tokens].
  - now apply split_word.
  - change (join (t :: t' :: tokens))
      with (t ++ " " ++ join (t' :: tokens))%string.
    now rewrite split_word_space, IH.
Qed.

Lemma join_snoc (tokens : list string) (t : string) :
  tokens <> [] ->
  join (tokens ++ [t]) = (join tokens ++ " " ++ t)%string.
Proof.
  induction tokens as [|a tokens IH]; [congruence |]. intros _.
  destruct tokens as [|b tokens]; [reflexivity |].
  change (join ((a :: b :: tokens) ++ [t]))
    with (a ++ " " ++ join ((b :: tokens) ++ [t]))%string.
  rewrite IH by discriminate.
  change (join (a :: b :: tokens)) with (a ++ " " ++ join (b :: tokens))%string.
  now rewrite !sapp_assoc.
Qed.

Lemma is_word_app (a b : string) :
  is_word a = true ->
  string_forallb (fun c => negb (is_space c)) b = true ->
  is_word (a ++ b) = true.
Proof.
  intros Ha Hb. apply is_word_inv in Ha as [Hne Hc]. unfold is_word.
  now rewrite is_empty_app, Hne, forallb_sapp, Hc, Hb.
Qed.

(** ** Characters *)

Ltac ascii_cases c :=
  destruct c as [[] [] [] [] [] [] [] []]; vm_compute;
  try reflexivity; try discriminate; try congruence.

Lemma digit_not_c_space (c : ascii) : is_digit c = true -> is_c_space c = false.
Proof. ascii_cases c. Qed.

Lemma digit_not_mark (c : ascii) :
  is_digit c = true ->
  c <> "*"%char /\ c <> "."%char /\ c <> "+"%char /\ c <> "-"%char
  /\ c <> "i"%char /\ c <> "n"%char.
Proof. ascii_cases c. all: intros _; repeat split; discriminate. Qed.

Lemma digit_char_spec (d : N) :
  (d < 10)%N ->
  is_digit (digit_char d) = true /\ digit_val (digit_char d) = d.
Proof.
  intros H.
  assert (d = 0 \/ d = 1 \/ d = 2 \/ d = 3 \/ d = 4 \/ d = 5 \/ d = 6
          \/ d = 7 \/ d = 8 \/ d = 9)%N as Hd by lia.
  repeat (destruct Hd as [-> | Hd]; [split; reflexivity |]).
  subst d. split; reflexivity.
Qed.

Lemma mod10_lt (n : N) : (n mod 10 < 10)%N.
Proof. apply N.mod_lt. discriminate. Qed.

(** ** Decimal integers *)

Lemma digits_value_app (a b : string) (acc : N) :
  digits_value (a ++ b) acc = digits_value b (digits_value a acc).
Proof.
  revert acc. induction a as [|c a IH]; intros acc; simpl; [reflexivity |].
  apply IH.
Qed.

Lemma single_digit_value (n a : N) :
  (n < 10)%N ->
  digits_value (String (digit_char (n mod 10)) EmptyString) a
  = (a * 10 ^ N.of_nat 1 + n)%N.
Proof.
  intros Hlt. cbn [digits_value].
  destruct (digit_char_spec (n mod 10) (mod10_lt n)) as [_ ->].
  rewrite N.mod_small by assumption.
  change (N.of_nat 1) with 1%N. rewrite N.pow_1_r. lia.
Qed.

Lemma digits_onto_spec (fuel : nat) :
  forall (n : N) (acc : string),
    (n < 2 ^ N.of_nat (S fuel))%N ->
    exists ds,
      digits_onto (S fuel) n acc = (ds ++ acc)%string
      /\ string_forallb is_digit ds = true
      /\ is_empty ds = false
      /\ forall a,
           digits_value ds a
           = (a * 10 ^ N.of_nat (String.length ds) + n)%N.
Proof.
  induction fuel as [|fuel IH]; intros n acc Hn.
  - assert (n < 10)%N as Hlt by (change (2 ^ N.of_nat 1)%N with 2%N in Hn; lia).
    exists (String (digit_char (n mod 10)) EmptyString).
    cbn [digits_onto]. apply N.ltb_lt in Hlt as Hb. rewrite Hb.
    destruct (digit_char_spec (n mod 10) (mod10_lt n)) as [Hd Hv].
    repeat split; try reflexivity.
    + cbn [string_forallb]. now rewrite Hd.
    + intros a. now apply single_digit_value.
  - cbn [digits_onto]. destruct (n <? 10)%N eqn:Hb.
    + apply N.ltb_lt in Hb.
      exists (String (digit_char (n mod 10)) EmptyString).
      destruct (digit_char_spec (n mod 10) (mod10_lt n)) as [Hd Hv].
      repeat split; try reflexivity.
      * cbn [string_forallb]. now rewrite Hd.
      * intros a. now apply single_digit_value.
    + apply N.ltb_ge in Hb.
      assert (n / 10 < 2 ^ N.of_nat (S fuel))%N as Hdiv.
      { apply N.Div0.div_lt_upper_bound.
        replace (N.of_nat (S (S fuel))) with (N.succ (N.of_nat (S fuel))) in Hn
          by lia.
        rewrite N.pow_succ_r' in Hn. lia. }
      destruct (IH (n / 10)%N (String (digit_char (n mod 10)) acc) Hdiv)
        as (ds & Heq & Hdig & Hne & Hval).
      exists (ds ++ String (digit_char (n mod 10)) EmptyString)%string.
      destruct (digit_char_spec (n mod 10) (mod10_lt n)) as [Hd Hv].
      repeat split.
      * change (digits_onto (S fuel) (n / 10)
                  (String (digit_char (n mod 10)) acc)
                = ((ds ++ String (digit_char (n mod 10)) "") ++ acc)%string).
        rewrite Heq, sapp_assoc. reflexivity.
      * rewrite forallb_sapp, Hdig. cbn [string_forallb]. now rewrite Hd.
      * now rewrite is_empty_app, Hne.
      * intros a. rewrite digits_value_app, Hval. cbn [digits_value].
        rewrite Hv, slength_app. cbn [String.length].
        replace (N.of_nat (String.length ds + 1))
          with (N.succ (N.of_nat (String.length ds))) by lia.
        rewrite N.pow_succ_r'.
        pose proof (N.div_mod n 10 ltac:(discriminate)) as Hdm. nia.
Qed.

Lemma str_N_spec (n : N) :
  string_forallb is_digit (str_N n) = true
  /\ is_empty (str_N n) = false
  /\ digits_value (str_N n) 0 = n.
Proof.
  unfold str_N.
  assert (n < 2 ^ N.of_nat (S (N.to_nat (N.log2 n))))%N as Hn.
  { replace (N.of_nat (S (N.to_nat (N.log2 n)))) with (N.succ (N.log2 n))
      by lia.
    destruct n as [|p]; [reflexivity |].
    apply N.log2_spec. reflexivity. }
  destruct (digits_onto_spec _ n EmptyString Hn) as (ds & Heq & Hdig & Hne & Hval).
  rewrite Heq, sapp_nil_r. repeat split; try assumption.
  rewrite Hval. lia.
Qed.

Lemma digits_onto_length (fuel : nat) :
  forall (n : N) (acc : string),
    String.length (digits_onto fuel n acc) <= fuel + String.length acc.
Proof.
  induction fuel as [|fuel IH]; intros n acc; cbn [digits_onto]; [lia |].
  destruct (n <? 10)%N.
  - cbn [String.length]. lia.
  - specialize (IH (n / 10)%N (String (digit_char (n mod 10)) acc)).
    cbn [String.length] in IH. lia.
Qed.

(** The counts the encoder can write are far below the limit of [int]. *)
Lemma python_int_str_nat (n : nat) :
  allocatable n -> python_int (str_nat n) = Ok (N.of_nat n).
Proof.
  unfold allocatable, python_int, str_nat. intros Hn.
  destruct (str_N_spec (N.of_nat n)) as (_ & _ & ->).
  assert (String.length (str_N (N.of_nat n)) <= 60) as Hlen.
  { unfold str_N.
    pose proof (digits_onto_length (S (N.to_nat (N.log2 (N.of_nat n))))
                  (N.of_nat n) EmptyString) as H.
    cbn [String.length] in H.
    pose proof (N.log2_le_mono _ _ Hn) as Hlog.
    change (N.log2 max_items) with 59%N in Hlog. lia. }
  assert ((int_max_str_digits
           <? N.of_nat (String.length (str_N (N.of_nat n))))%N = false)
    as ->; [| reflexivity].
  apply N.ltb_ge. unfold int_max_str_digits. lia.
Qed.

Lemma list_repeat_allocatable (value : float) (count : nat) :
  allocatable count ->
  list_repeat value (N.of_nat count) = Ok (repeat value count).
Proof.
  unfold allocatable, list_repeat. intros Hn.
  assert (max_items < PY_SSIZE_T_MAX)%N as Hlt by reflexivity.
  assert ((PY_SSIZE_T_MAX <? N.of_nat count)%N = false) as ->
    by (apply N.ltb_ge; lia).
  assert ((max_items <? N.of_nat count)%N = false) as ->
    by (now apply N.ltb_ge).
  now rewrite Nat2N.id.
Qed.

Lemma fixed_digits_digits (k : nat) (n : N) :
  string_forallb is_digit (fixed_digits k n) = true.
Proof.
  revert n. induction k as [|k IH]; intros n; simpl; [reflexivity |].
  rewrite forallb_sapp, IH. simpl.
  now destruct (digit_char_spec (n mod 10) (mod10_lt n)) as [-> _].
Qed.

Lemma fixed_digits_length (k : nat) (n : N) :
  String.length (fixed_digits k n) = k.
Proof.
  revert n. induction k as [|k IH]; intros n; simpl; [reflexivity |].
  rewrite slength_app, IH. simpl. lia.
Qed.

Lemma fixed_digits_value (k : nat) :
  forall n a,
    digits_value (fixed_digits k n) a
    = (a * 10 ^ N.of_nat k + n mod 10 ^ N.of_nat k)%N.
Proof.
  induction k as [|k IH]; intros n a.
  - cbn [fixed_digits digits_value]. change (N.of_nat 0) with 0%N.
    rewrite N.pow_0_r, N.mod_1_r. lia.
  - cbn [fixed_digits]. rewrite digits_value_app, IH. cbn [digits_value].
    destruct (digit_char_spec (n mod 10) (mod10_lt n)) as [_ ->].
    replace (N.of_nat (S k)) with (N.succ (N.of_nat k)) by lia.
    rewrite N.pow_succ_r'.
    rewrite (N.Div0.mod_mul_r n 10 (10 ^ N.of_nat k)). lia.
Qed.

(** ** Numerals: what [float] and the pattern make of them *)

Lemma remove_underscores_id (s : string) :
  forall prev,
    Ascii.eqb prev "_" = false ->
    string_forallb (fun c => negb (Ascii.eqb c "_")) s = true ->
    remove_underscores prev s = Some s.
Proof.
  induction s as [|c s IH]; intros prev Hp Hs; simpl in *.
  - now rewrite Hp.
  - apply andb_true_iff in Hs as [Hc Hs]. apply negb_true_iff in Hc.
    rewrite Hc, Hp. simpl. now rewrite (IH c Hc Hs).
Qed.

(** The characters of a numeral. *)
Lemma digit_numeric (c : ascii) :
  is_digit c = true ->
  negb (is_c_space c) = true /\ negb (Ascii.eqb c "_") = true
  /\ negb (is_space c) = true.
Proof. ascii_cases c. all: intros _; repeat split. Qed.

Lemma digits_plain (q : ascii -> bool) (s : string) :
  (forall c, is_digit c = true -> q c = true) ->
  string_forallb is_digit s = true -> string_forallb q s = true.
Proof. apply forallb_impl. Qed.

Lemma numeral_plain (q : ascii -> bool) (sgn ip dot fp : string) :
  (forall c, is_digit c = true -> q c = true) ->
  q "."%char = true -> q "+"%char = true -> q "-"%char = true ->
  numeral sgn ip dot fp ->
  string_forallb q (sgn ++ ip ++ dot ++ fp) = true.
Proof.
  intros Hq Hdot Hplus Hminus [Hs Hi Hf Hd _].
  rewrite !forallb_sapp, (digits_plain q ip Hq Hi), (digits_plain q fp Hq Hf).
  assert (string_forallb q sgn = true) as ->
    by (destruct Hs as [-> | [-> | ->]]; simpl; now rewrite ?Hplus, ?Hminus).
  assert (string_forallb q dot = true) as ->
    by (destruct Hd as [-> | [-> _]]; simpl; now rewrite ?Hdot).
  reflexivity.
Qed.

(** The unsigned part of a numeral starts with a digit or a point. *)
Lemma numeral_body_head (sgn ip dot fp : string) :
  numeral sgn ip dot fp ->
  exists c r,
    (ip ++ dot ++ fp)%string = String c r
    /\ (is_digit c = true \/ c = "."%char).
Proof.
  intros [_ Hi _ Hd Hne].
  destruct ip as [|c ip].
  - destruct Hd as [-> | [-> ->]]; [| discriminate].
    exists "."%char, fp. split; [reflexivity | now right].
  - exists c, (ip ++ dot ++ fp)%string. split; [reflexivity |].
    simpl in Hi. apply andb_true_iff in Hi as [Hc _]. now left.
Qed.

Lemma strip_sign_head (c : ascii) (r : string) :
  is_digit c = true \/ c = "."%char ->
  strip_sign (String c r) = (false, String c r).
Proof.
  intros [H | ->]; [| reflexivity]. revert H. ascii_cases c.
Qed.

Lemma not_a_word_head (c : ascii) (r : string) :
  is_digit c = true \/ c = "."%char ->
  String.eqb (lower (String c r)) "inf" = false
  /\ String.eqb (lower (String c r)) "infinity" = false
  /\ String.eqb (lower (String c r)) "nan" = false.
Proof.
  intros [H | ->]; [| repeat split; reflexivity]. revert H. ascii_cases c.
  all: intros _; repeat split.
Qed.

Lemma parse_decimal_numeral (neg : bool) (sgn ip dot fp : string) :
  numeral sgn ip dot fp ->
  parse_decimal neg (ip ++ dot ++ fp)
  = Some (decimal_to_float neg (digits_value (ip ++ fp) 0)
            (- Z.of_nat (String.length fp))).
Proof.
  intros [_ Hi Hf Hd Hne]. unfold parse_decimal.
  destruct Hd as [-> | [-> ->]].
  - rewrite (span_app is_digit ip ("." ++ fp)) by (try assumption; reflexivity).
    cbn [append]. rewrite (span_all is_digit fp Hf), Hne.
    cbn [parse_exponent]. reflexivity.
  - cbn [append]. rewrite !sapp_nil_r, (span_all is_digit ip Hi).
    rewrite Hne. cbn [parse_exponent]. rewrite sapp_nil_r. reflexivity.
Qed.

Lemma python_float_numeral (sgn ip dot fp : string) :
  numeral sgn ip dot fp ->
  python_float (sgn ++ ip ++ dot ++ fp) = Some (numeral_value sgn ip fp).
Proof.
  intros Hn. unfold python_float, numeral_value.
  destruct (numeral_body_head _ _ _ _ Hn) as (c & r & Hbody & Hc).
  assert (lstrip_by is_c_space (sgn ++ ip ++ dot ++ fp)
          = (sgn ++ ip ++ dot ++ fp)%string) as ->.
  { apply lstrip_by_id. destruct (numeral_sign _ _ _ _ Hn) as [-> | [-> | ->]];
      [| reflexivity | reflexivity].
    cbn [append]. rewrite Hbody. simpl.
    destruct Hc as [Hc | ->]; [now apply digit_not_c_space | reflexivity]. }
  rewrite rstrip_by_clean
    by (apply numeral_plain; try reflexivity; try assumption;
        intros x Hx; now apply digit_numeric).
  rewrite remove_underscores_id
    by (try reflexivity;
        apply (numeral_plain (fun c => negb (Ascii.eqb c "_")));
        try reflexivity; try assumption;
        intros x Hx; now apply digit_numeric).
  pose proof (parse_decimal_numeral true _ _ _ _ Hn) as Hneg.
  pose proof (parse_decimal_numeral false _ _ _ _ Hn) as Hpos.
  rewrite Hbody in Hneg, Hpos.
  destruct (not_a_word_head c r Hc) as (H1 & H2 & H3).
  destruct (numeral_sign _ _ _ _ Hn) as [-> | [-> | ->]]; cbn [append].
  - rewrite Hbody, (strip_sign_head c r Hc), H1, H2, H3. exact Hpos.
  - rewrite Hbody. cbn [strip_sign]. rewrite H1, H2, H3. exact Hpos.
  - rewrite Hbody. cbn [strip_sign]. rewrite H1, H2, H3. exact Hneg.
Qed.

Lemma take_sign_head (c : ascii) (r : string) :
  is_digit c = true \/ c = "."%char ->
  take_sign (String c r) = (EmptyString, String c r).
Proof.
  intros [H | ->]; [| reflexivity]. revert H. ascii_cases c.
Qed.

Lemma take_dot_other (s : string) :
  match s with
  | EmptyString => True
  | String c _ => c <> "."%char
  end ->
  take_dot s = (EmptyString, s).
Proof.
  destruct s as [|c r]; [reflexivity |]. ascii_cases c.
Qed.

Lemma re_match_numeral (ds sgn ip dot fp rest : string) :
  string_forallb is_digit ds = true ->
  is_empty ds = false ->
  numeral sgn ip dot fp ->
  ends_numeral dot rest ->
  re_match_count_run (ds ++ "*" ++ sgn ++ ip ++ dot ++ fp ++ rest)
  = Some (ds, (sgn ++ ip ++ dot ++ fp)%string).
Proof.
  intros Hds Hne Hn Hend. unfold re_match_count_run.
  rewrite (span_app is_digit ds) by (try assumption; reflexivity).
  rewrite Hne. cbn [append].
  destruct (numeral_body_head _ _ _ _ Hn) as (c & r & Hbody & Hc).
  assert (take_sign (sgn ++ ip ++ dot ++ fp ++ rest)
          = (sgn, (ip ++ dot ++ fp ++ rest)%string)) as ->.
  { destruct (numeral_sign _ _ _ _ Hn) as [-> | [-> | ->]];
      [| reflexivity | reflexivity].
    cbn [append].
    replace (ip ++ dot ++ fp ++ rest)%string
      with ((ip ++ dot ++ fp) ++ rest)%string by now rewrite !sapp_assoc.
    rewrite Hbody. cbn [append]. now apply take_sign_head. }
  destruct Hn as [_ Hi Hf Hd Hdig].
  destruct Hd as [-> | [-> ->]].
  - rewrite (span_app is_digit ip) by (try assumption; reflexivity).
    cbn [append take_dot].
    rewrite (span_app is_digit fp rest); [reflexivity | assumption |].
    destruct rest; [exact I | apply Hend].
  - cbn [append]. cbn [append] in Hend.
    assert (stops is_digit rest) as Hstop
      by (destruct rest; [exact I | apply Hend]).
    rewrite (span_app is_digit ip rest Hi Hstop).
    rewrite take_dot_other
      by (destruct rest; [exact I | now apply Hend]).
    now rewrite (span_stops is_digit rest Hstop).
Qed.

(** A token that does not start with digits and a star is not a count
    run. *)
Lemma re_match_no_star (ds rest : string) :
  string_forallb is_digit ds = true ->
  match rest with
  | EmptyString => True
  | String c _ => is_digit c = false /\ c <> "*"%char
  end ->
  re_match_count_run (ds ++ rest) = None.
Proof.
  intros Hds Hrest. unfold re_match_count_run.
  rewrite (span_app is_digit ds rest Hds)
    by (destruct rest; [exact I | apply Hrest]).
  destruct (is_empty ds); [reflexivity |].
  destruct rest as [|c r]; [reflexivity |].
  destruct Hrest as [_ Hc]. revert Hc. ascii_cases c.
Qed.

(** ** The printed form of a float *)

Lemma format_6f_finite (x : float) :
  is_finite x = true ->
  format_6f x
  = ((if get_sign x then "-" else "")
     ++ str_N (scaled6 x / 1000000) ++ "."
     ++ fixed_digits 6 (scaled6 x mod 1000000))%string.
Proof.
  unfold is_finite, format_6f. intros H.
  apply negb_true_iff, orb_false_iff in H as [-> ->]. reflexivity.
Qed.

Lemma format_6f_numeral (x : float) :
  numeral (if get_sign x then "-" else "") (str_N (scaled6 x / 1000000)) "."
    (fixed_digits 6 (scaled6 x mod 1000000)).
Proof.
  destruct (str_N_spec (scaled6 x / 1000000)) as (Hd & Hne & _).
  split.
  - destruct (get_sign x); [right; right | left]; reflexivity.
  - exact Hd.
  - apply fixed_digits_digits.
  - now left.
  - now rewrite Hne.
Qed.

Lemma format_6f_value (x : float) :
  numeral_value (if get_sign x then "-" else "") (str_N (scaled6 x / 1000000))
    (fixed_digits 6 (scaled6 x mod 1000000))
  = decimal_to_float (get_sign x) (scaled6 x) (-6).
Proof.
  unfold numeral_value.
  destruct (str_N_spec (scaled6 x / 1000000)) as (_ & _ & Hv).
  rewrite digits_value_app, Hv, fixed_digits_value, fixed_digits_length.
  change (10 ^ N.of_nat 6)%N with 1000000%N.
  rewrite N.Div0.mod_mod.
  replace (scaled6 x / 1000000 * 1000000 + scaled6 x mod 1000000)%N
    with (scaled6 x)
    by (pose proof (N.div_mod (scaled6 x) 1000000 ltac:(discriminate)); lia).
  now destruct (get_sign x).
Qed.

Lemma python_float_format_6f (x : float) :
  is_finite x = true ->
  python_float (format_6f x)
  = Some (decimal_to_float (get_sign x) (scaled6 x) (-6)).
Proof.
  intros H. rewrite (format_6f_finite x H).
  rewrite (python_float_numeral _ _ _ _ (format_6f_numeral x)).
  now rewrite format_6f_value.
Qed.

Lemma is_word_format_6f (x : float) : is_word (format_6f x) = true.
Proof.
  destruct (is_finite x) eqn:Hfin.
  - rewrite (format_6f_finite x Hfin). unfold is_word.
    rewrite (numeral_plain (fun c => negb (is_space c)) _ _ _ _
               ltac:(intros c Hc; now apply digit_numeric)
               eq_refl eq_refl eq_refl (format_6f_numeral x)).
    destruct (str_N_spec (scaled6 x / 1000000)) as (_ & Hne & _).
    rewrite !is_empty_app, Hne, andb_false_r. reflexivity.
  - unfold format_6f. unfold is_finite in Hfin.
    destruct (is_nan x); [reflexivity |].
    destruct (is_infinity x); [| discriminate].
    now destruct (get_sign x).
Qed.

Lemma is_word_str_nat (n : nat) : is_word (str_nat n) = true.
Proof.
  unfold str_nat, is_word.
  destruct (str_N_spec (N.of_nat n)) as (Hd & -> & _).
  rewrite (digits_plain (fun c => negb (is_space c)) _
             ltac:(intros c Hc; now apply digit_numeric) Hd).
  reflexivity.
Qed.

Lemma is_word_make_token (value : float) (count : nat) :
  is_word (make_token value count) = true.
Proof.
  unfold make_token.
  destruct (isclose value zero), (count =? 1)%nat; try reflexivity.
  - apply is_word_app; [apply is_word_str_nat | reflexivity].
  - apply is_word_format_6f.
  - apply is_word_app; [apply is_word_str_nat |].
    change ("*" ++ format_6f value)%string with (String "*" (format_6f value)).
    cbn [string_forallb].
    pose proof (is_word_format_6f value) as H. apply is_word_inv in H as [_ ->].
    reflexivity.
Qed.

(** ** Decoding the tokens of the encoder *)

Lemma re_match_format_6f (x : float) :
  is_finite x = true -> re_match_count_run (format_6f x) = None.
Proof.
  intros H. rewrite (format_6f_finite x H).
  destruct (str_N_spec (scaled6 x / 1000000)) as (Hd & _ & _).
  destruct (get_sign x).
  - apply (re_match_no_star EmptyString); [reflexivity |].
    cbn [append]. split; [reflexivity | discriminate].
  - cbn [append]. apply re_match_no_star; [assumption |].
    cbn [append]. split; [reflexivity | discriminate].
Qed.

Lemma re_match_count_format_6f (count : nat) (x : float) :
  is_finite x = true ->
  re_match_count_run (str_nat count ++ "*" ++ format_6f x)
  = Some (str_nat count, format_6f x).
Proof.
  intros H. rewrite (format_6f_finite x H).
  destruct (str_N_spec (N.of_nat count)) as (Hd & Hne & _).
  pose proof (re_match_numeral (str_nat count) _ _ _ _ EmptyString
                Hd Hne (format_6f_numeral x) I) as Hm.
  rewrite !sapp_nil_r in Hm. exact Hm.
Qed.

Lemma numeral_zero : numeral "" "0" "" "".
Proof. split; try reflexivity. - now left. - now right. Qed.

Lemma re_match_count_zero (count : nat) :
  re_match_count_run (str_nat count ++ "*0") = Some (str_nat count, "0").
Proof.
  destruct (str_N_spec (N.of_nat count)) as (Hd & Hne & _).
  exact (re_match_numeral (str_nat count) _ _ _ _ EmptyString
           Hd Hne numeral_zero I).
Qed.

Lemma python_float_zero : python_float "0" = Some zero.
Proof. reflexivity. Qed.

Lemma decode_make_token (values : list float) (value : float) (count : nat) :
  is_finite value = true ->
  allocatable count ->
  decode_token values (make_token value count)
  = Ok (values ++ repeat (reread value) count).
Proof.
  intros Hfin Hcount. unfold make_token, reread, decode_token.
  destruct (isclose value zero); destruct (count =? 1)%nat eqn:Hc.
  - apply Nat.eqb_eq in Hc. subst count. reflexivity.
  - rewrite re_match_count_zero, python_float_zero.
    rewrite (python_int_str_nat count Hcount). cbn [bind].
    now rewrite (list_repeat_allocatable zero count Hcount).
  - apply Nat.eqb_eq in Hc. subst count.
    rewrite (re_match_format_6f value Hfin).
    rewrite (python_float_format_6f value Hfin). reflexivity.
  - rewrite (re_match_count_format_6f count value Hfin).
    rewrite (python_float_format_6f value Hfin).
    rewrite (python_int_str_nat count Hcount). cbn [bind].
    now rewrite (list_repeat_allocatable _ count Hcount).
Qed.

(** ** The loops of the encoder and the runs of the array *)

Lemma skipn_nth_cons (l : list float) (i : nat) :
  i < List.length l -> skipn i l = nth i l zero :: skipn (S i) l.
Proof.
  revert i. induction l as [|x l IH]; intros i Hi; simpl in Hi; [lia |].
  destruct i as [|i]; [reflexivity |]. simpl. apply IH. lia.
Qed.

Lemma run_length_le (value : float) (rest : list float) :
  run_length value rest <= List.length rest.
Proof.
  induction rest as [|x rest IH]; simpl; [lia |].
  destruct (isclose x value); simpl; lia.
Qed.

Lemma count_run_spec (array : list float) (i : nat) (value : float) :
  forall fuel count,
    i + count <= List.length array ->
    List.length array - (i + count) < fuel ->
    count_run fuel array i value count
    = Some (count + run_length value (skipn (i + count) array)).
Proof.
  induction fuel as [|fuel IH]; intros count Hle Hfuel; [lia |].
  cbn [count_run].
  destruct (i + count <? List.length array)%nat eqn:Hlt.
  - apply Nat.ltb_lt in Hlt.
    rewrite (skipn_nth_cons array (i + count) Hlt). cbn [run_length andb].
    destruct (isclose (nth (i + count) array zero) value).
    + rewrite IH by lia.
      replace (i + (count + 1)) with (S (i + count)) by lia.
      f_equal. lia.
    + f_equal. lia.
  - apply Nat.ltb_ge in Hlt. cbn [andb].
    rewrite skipn_all2 by lia. cbn [run_length]. f_equal. lia.
Qed.

Lemma runs_from_fuel (f1 : nat) :
  forall f2 l,
    List.length l <= f1 -> List.length l <= f2 ->
    runs_from f1 l = runs_from f2 l.
Proof.
  induction f1 as [|f1 IH]; intros f2 l H1 H2.
  - destruct l; [| simpl in H1; lia]. now destruct f2.
  - destruct l as [|v rest]; [now destruct f2 |].
    destruct f2 as [|f2]; [simpl in H2; lia |].
    cbn [runs_from]. f_equal. simpl in H1, H2.
    pose proof (run_length_le v rest).
    apply IH; rewrite length_skipn; lia.
Qed.

Lemma runs_cons (value : float) (rest : list float) :
  runs (value :: rest)
  = (value, S (run_length value rest))
    :: runs (skipn (run_length value rest) rest).
Proof.
  unfold runs. cbn [List.length runs_from]. f_equal.
  apply runs_from_fuel; rewrite length_skipn; lia.
Qed.

Lemma compress_loop_tokens (array : list float) (w : Z) :
  forall fuel i st,
    i <= List.length array ->
    List.length array - i < fuel ->
    compress_loop fuel array w i st
    = Some (fold_left (add_token w) (cmg_tokens (skipn i array)) st).
Proof.
  induction fuel as [|fuel IH]; intros i st Hle Hfuel; [lia |].
  cbn [compress_loop].
  destruct (i <? List.length array)%nat eqn:Hlt.
  - apply Nat.ltb_lt in Hlt.
    rewrite count_run_spec by lia.
    replace (i + 1) with (S i) by lia.
    pose proof (run_length_le (nth i array zero) (skipn (S i) array)) as Hk.
    rewrite length_skipn in Hk.
    rewrite IH by lia.
    rewrite (skipn_nth_cons array i Hlt). unfold cmg_tokens.
    rewrite runs_cons. cbn [map fold_left fst snd].
    rewrite skipn_skipn.
    replace (run_length (nth i array zero) (skipn (S i) array) + S i)
      with (i + (1 + run_length (nth i array zero) (skipn (S i) array)))
      by lia.
    reflexivity.
  - apply Nat.ltb_ge in Hlt. rewrite skipn_all2 by lia. reflexivity.
Qed.

Lemma compress_array_tokens (array : list float) (w : Z) :
  compress_array_to_cmg_format array w
  = Some (close_lines
            (fold_left (add_token w) (cmg_tokens array) (EmptyString, []))).
Proof.
  unfold compress_array_to_cmg_format.
  rewrite compress_loop_tokens by lia. cbn [skipn].
  now destruct (fold_left (add_token w) (cmg_tokens array) (EmptyString, [])).
Qed.

Lemma In_skipn (A : Type) (x : A) (k : nat) (l : list A) :
  In x (skipn k l) -> In x l.
Proof.
  revert l. induction k as [|k IH]; intros l H; [exact H |].
  destruct l as [|y l]; [exact H |]. right. now apply IH.
Qed.

Lemma runs_from_In (fuel : nat) :
  forall l v c, In (v, c) (runs_from fuel l) -> In v l.
Proof.
  induction fuel as [|fuel IH]; intros l v c H; [destruct l; contradiction |].
  destruct l as [|x rest]; [contradiction |].
  cbn [runs_from] in H. destruct H as [H | H].
  - injection H as -> _. now left.
  - right. apply IH in H. now apply In_skipn in H.
Qed.

(** ** Line wrapping *)

Lemma join_head (c : ascii) (t : string) (rest : list string) :
  exists r, join (String c t :: rest) = String c r.
Proof.
  destruct rest as [|t' rest]; [now exists t |].
  now exists (t ++ " " ++ join (t' :: rest))%string.
Qed.

Lemma join_nonempty (seg : list string) :
  Forall (fun t => is_word t = true) seg ->
  seg <> [] -> is_empty (join seg) = false.
Proof.
  intros Hw Hne. destruct seg as [|t rest]; [congruence |].
  inversion Hw as [|? ? Ht _]; subst. apply is_word_inv in Ht as [Ht _].
  destruct t as [|c t]; [discriminate |].
  destruct (join_head c t rest) as [r ->]. reflexivity.
Qed.

Lemma join_empty (seg : list string) :
  Forall (fun t => is_word t = true) seg ->
  is_empty (join seg) = true -> seg = [].
Proof.
  intros Hw He. destruct seg as [|t rest]; [reflexivity |].
  rewrite join_nonempty in He; [discriminate | assumption | discriminate].
Qed.

Lemma add_token_inv (w : Z) (done : list string) (st : string * list string)
    (t : string) :
  Forall (fun t => is_word t = true) done ->
  wrap_inv w done st ->
  wrap_inv w (done ++ [t]) (add_token w st t).
Proof.
  intros Hw [segs cur_seg Hdone Hsegs Hcur]. unfold add_token.
  assert (Forall (fun t => is_word t = true) cur_seg) as Hwcur.
  { rewrite <- Hdone in Hw. now apply Forall_app in Hw as [_ Hw]. }
  destruct (is_empty (join cur_seg)) eqn:He; cbn [negb andb].
  - apply (join_empty cur_seg Hwcur) in He. subst cur_seg.
    apply (Wrap_inv w (done ++ [t]) segs [t]).
    + rewrite <- Hdone, app_nil_r. reflexivity.
    + assumption.
    + right. split; [discriminate | right; now exists t].
  - assert (cur_seg <> []) as Hne by (intros ->; discriminate).
    assert (fits w cur_seg) as Hfit by (destruct Hcur; [contradiction | assumption]).
    destruct (w <? Z.of_nat (String.length (join cur_seg ++ " " ++ t)))%Z eqn:Hlen.
    + replace (map join segs ++ [join cur_seg])%list
        with (map join (segs ++ [cur_seg]))
        by (rewrite map_app; reflexivity).
      apply (Wrap_inv w (done ++ [t]) (segs ++ [cur_seg]) [t]).
      * rewrite concat_app. cbn [List.concat]. rewrite app_nil_r, Hdone.
        reflexivity.
      * apply Forall_app. split; [assumption | now constructor].
      * right. split; [discriminate | right; now exists t].
    + rewrite <- (join_snoc cur_seg t Hne).
      apply (Wrap_inv w (done ++ [t]) segs (cur_seg ++ [t])).
      * rewrite app_assoc, Hdone. reflexivity.
      * assumption.
      * right. split; [now destruct cur_seg |]. left.
        rewrite (join_snoc cur_seg t Hne). apply Z.ltb_ge in Hlen. exact Hlen.
Qed.

Lemma fold_add_token_inv (w : Z) (tokens : list string) :
  forall done st,
    Forall (fun t => is_word t = true) (done ++ tokens) ->
    wrap_inv w done st ->
    wrap_inv w (done ++ tokens) (fold_left (add_token w) tokens st).
Proof.
  induction tokens as [|t tokens IH]; intros done st Hw Hinv.
  - now rewrite app_nil_r.
  - cbn [fold_left].
    replace (done ++ t :: tokens)%list with ((done ++ [t]) ++ tokens)%list
      by (rewrite <- app_assoc; reflexivity).
    apply IH.
    + rewrite <- app_assoc. exact Hw.
    + apply add_token_inv; [| assumption].
      now apply Forall_app in Hw as [Hw _].
Qed.

Lemma close_lines_segments (w : Z) (done : list string)
    (st : string * list string) :
  Forall (fun t => is_word t = true) done ->
  wrap_inv w done st ->
  exists segs,
    close_lines st = map join segs
    /\ List.concat segs = done
    /\ Forall (fits w) segs.
Proof.
  intros Hw [segs cur_seg Hdone Hsegs Hcur]. unfold close_lines.
  assert (Forall (fun t => is_word t = true) cur_seg) as Hwcur.
  { rewrite <- Hdone in Hw. now apply Forall_app in Hw as [_ Hw]. }
  destruct (is_empty (join cur_seg)) eqn:He; cbn [negb].
  - apply (join_empty cur_seg Hwcur) in He. subst cur_seg.
    exists segs. rewrite app_nil_r in Hdone. now repeat split.
  - assert (cur_seg <> []) as Hne by (intros ->; discriminate).
    exists (segs ++ [cur_seg])%list. repeat split.
    + rewrite map_app. reflexivity.
    + rewrite concat_app. cbn [List.concat]. now rewrite app_nil_r.
    + apply Forall_app. split; [assumption |].
      constructor; [| constructor]. destruct Hcur; [contradiction | assumption].
Qed.

Lemma cmg_tokens_words (array : list float) :
  Forall (fun t => is_word t = true) (cmg_tokens array).
Proof.
  unfold cmg_tokens. apply Forall_map, Forall_forall.
  intros r _. apply is_word_make_token.
Qed.

(** The lines of a call are segments of its token sequence. *)
Lemma compress_array_segments (array : list float) (w : Z) :
  exists segs,
    compress_array_to_cmg_format array w = Some (map join segs)
    /\ List.concat segs = cmg_tokens array
    /\ Forall (fits w) segs.
Proof.
  rewrite compress_array_tokens.
  pose proof (cmg_tokens_words array) as Hw.
  assert (wrap_inv w [] (EmptyString, [])) as Hinit.
  { apply (Wrap_inv w [] [] []); [reflexivity | constructor | now left]. }
  pose proof (fold_add_token_inv w (cmg_tokens array) [] _ Hw Hinit) as Hinv.
  cbn [app] in Hinv.
  destruct (close_lines_segments w _ _ Hw Hinv) as (segs & Heq & Hc & Hf).
  exists segs. now rewrite Heq.
Qed.

(** ** Reading back the document of the encoder *)

Lemma decode_tokens_app (a b : list string) :
  forall values,
    decode_tokens values (a ++ b)
    = (values' <- decode_tokens values a ;; decode_tokens values' b).
Proof.
  induction a as [|t a IH]; intros values; [reflexivity |].
  cbn [app decode_tokens]. destruct (decode_token values t) as [v | e];
    [apply IH | reflexivity].
Qed.

Lemma rstrip_by_app_fixed (sp : ascii -> bool) (a b : string) :
  rstrip_by sp b = b -> is_empty b = false ->
  rstrip_by sp (a ++ b) = (a ++ b)%string.
Proof.
  intros Hb Hne. induction a as [|c a IH]; [exact Hb |].
  cbn [append rstrip_by]. rewrite IH, is_empty_app, Hne, andb_false_r.
  now rewrite andb_false_r.
Qed.

Lemma rstrip_join (seg : list string) :
  Forall (fun t => is_word t = true) seg ->
  rstrip_by is_space (join seg) = join seg.
Proof.
  induction 1 as [|t seg Ht Hseg IH]; [reflexivity |].
  destruct seg as [|t' seg].
  - apply is_word_inv in Ht as [_ Ht]. now apply rstrip_by_clean.
  - change (join (t :: t' :: seg)) with (t ++ " " ++ join (t' :: seg))%string.
    rewrite <- sapp_assoc. apply rstrip_by_app_fixed; [exact IH |].
    apply join_nonempty; [assumption | discriminate].
Qed.

Lemma strip_line (seg : list string) :
  Forall (fun t => is_word t = true) seg ->
  seg <> [] ->
  strip (join seg ++ newline) = join seg.
Proof.
  intros Hw Hne. unfold strip.
  destruct seg as [|t rest]; [congruence |].
  inversion Hw as [|? ? Ht _]; subst.
  apply is_word_inv in Ht as [Hte Htc].
  destruct t as [|c t]; [discriminate |].
  cbn [string_forallb] in Htc. apply andb_true_iff in Htc as [Hc _].
  apply negb_true_iff in Hc.
  destruct (join_head c t rest) as [r Hr].
  rewrite lstrip_by_id by (rewrite Hr; exact Hc).
  rewrite rstrip_by_app_spaces by reflexivity.
  now apply rstrip_join.
Qed.

Lemma startswith_join (seg : list string) :
  match seg with
  | [] => True
  | t :: _ => head_not_star t = true
  end ->
  startswith "**" (join seg) = false.
Proof.
  destruct seg as [|t rest]; [reflexivity |].
  destruct t as [|c t]; [discriminate |]. intros Hc.
  destruct (join_head c t rest) as [r ->].
  cbn [head_not_star] in Hc. apply negb_true_iff in Hc.
  cbn [startswith]. rewrite Ascii.eqb_sym, Hc. reflexivity.
Qed.

(** A token the decoder accepts as the start of a line of values. *)
Lemma decode_lines_segments (segs : list (list string)) :
  Forall (fun seg => seg <> []) segs ->
  Forall (Forall (fun t => is_word t = true)) segs ->
  Forall (Forall (fun t => head_not_star t = true)) segs ->
  forall values,
    decode_lines values (map (fun line => (line ++ newline)%string)
                           (map join segs))
    = decode_tokens values (List.concat segs).
Proof.
  induction segs as [|seg segs IH]; intros Hne Hw Hs values; [reflexivity |].
  inversion Hne as [|? ? Hne1 Hne2]; subst.
  inversion Hw as [|? ? Hw1 Hw2]; subst.
  inversion Hs as [|? ? Hs1 Hs2]; subst.
  cbn [map decode_lines List.concat].
  rewrite (strip_line seg Hw1 Hne1).
  rewrite (join_nonempty seg Hw1 Hne1).
  rewrite startswith_join
    by (destruct seg; [exact I | now inversion Hs1]).
  cbn [orb]. rewrite (split_join seg Hw1), decode_tokens_app.
  destruct (decode_tokens values seg) as [v | e]; [| reflexivity].
  cbn [bind]. now apply IH.
Qed.

Lemma head_not_star_digits (ds rest : string) :
  string_forallb is_digit ds = true -> is_empty ds = false ->
  head_not_star (ds ++ rest) = true.
Proof.
  destruct ds as [|c ds]; [discriminate |]. cbn [string_forallb].
  intros H _. apply andb_true_iff in H as [Hc _].
  cbn [append head_not_star]. apply negb_true_iff.
  destruct (digit_not_mark c Hc) as (Hstar & _).
  now apply Ascii.eqb_neq.
Qed.

Lemma head_not_star_format_6f (x : float) :
  head_not_star (format_6f x) = true.
Proof.
  destruct (is_finite x) eqn:Hfin.
  - rewrite (format_6f_finite x Hfin).
    destruct (get_sign x); [reflexivity |]. cbn [append].
    destruct (str_N_spec (scaled6 x / 1000000)) as (Hd & Hne & _).
    now apply head_not_star_digits.
  - unfold format_6f. unfold is_finite in Hfin.
    destruct (is_nan x); [reflexivity |].
    destruct (is_infinity x); [| discriminate].
    now destruct (get_sign x).
Qed.

Lemma head_not_star_make_token (value : float) (count : nat) :
  head_not_star (make_token value count) = true.
Proof.
  unfold make_token.
  destruct (str_N_spec (N.of_nat count)) as (Hd & Hne & _).
  destruct (isclose value zero), (count =? 1)%nat; try reflexivity.
  - now apply head_not_star_digits.
  - apply head_not_star_format_6f.
  - now apply head_not_star_digits.
Qed.

Lemma decode_run_tokens (rs : list (float * nat)) :
  Forall (fun r => is_finite (fst r) = true /\ allocatable (snd r)) rs ->
  forall values,
    decode_tokens values (map (fun r => make_token (fst r) (snd r)) rs)
    = Ok (values
          ++ expand (map (fun r => (reread (fst r), snd r)) rs)).
Proof.
  induction 1 as [|[v c] rs [Hv Hc] Hrs IH]; intros values.
  - cbn. now rewrite app_nil_r.
  - cbn [map decode_tokens fst snd]. cbn [fst] in Hv. cbn [snd] in Hc.
    rewrite (decode_make_token values v c Hv Hc). cbn [bind].
    rewrite IH. unfold expand. cbn [flat_map fst snd].
    now rewrite app_assoc.
Qed.

Lemma runs_from_count (fuel : nat) :
  forall l v c, In (v, c) (runs_from fuel l) -> c <= List.length l.
Proof.
  induction fuel as [|fuel IH]; intros l v c H; [destruct l; contradiction |].
  destruct l as [|x rest]; [contradiction |].
  cbn [runs_from] in H. destruct H as [H | H].
  - injection H as _ <-. pose proof (run_length_le x rest).
    cbn [List.length]. lia.
  - apply IH in H. rewrite length_skipn in H. cbn [List.length]. lia.
Qed.

Lemma allocatable_le (m n : nat) : m <= n -> allocatable n -> allocatable m.
Proof. unfold allocatable. lia. Qed.

Lemma runs_finite (array : list float) :
  Forall (fun x => is_finite x = true) array ->
  allocatable (List.length array) ->
  Forall (fun r => is_finite (fst r) = true /\ allocatable (snd r))
    (runs array).
Proof.
  intros H Hlen. apply Forall_forall. intros [v c] Hin. split.
  - apply runs_from_In in Hin. rewrite Forall_forall in H. now apply H.
  - apply runs_from_count in Hin. now apply (allocatable_le _ _ Hin).
Qed.

Lemma run_length_close (value : float) (rest : list float) :
  Forall (fun x => isclose x value = true)
    (firstn (run_length value rest) rest).
Proof.
  induction rest as [|x rest IH]; [constructor |].
  cbn [run_length]. destruct (isclose x value) eqn:Hx; [| constructor].
  cbn [firstn]. now constructor.
Qed.

(** Each element is read back as the printed form of the first element
    of its run, which it is close to. *)
Lemma runs_from_elementwise (fuel : nat) :
  forall l,
    List.length l <= fuel ->
    Forall2
      (fun y x =>
         exists h, In h l /\ (x = h \/ isclose x h = true) /\ y = reread h)
      (expand (map (fun r => (reread (fst r), snd r)) (runs_from fuel l))) l.
Proof.
  induction fuel as [|fuel IH]; intros l Hl.
  - destruct l; [constructor | simpl in Hl; lia].
  - destruct l as [|v rest]; [constructor |]. simpl in Hl.
    pose proof (run_length_le v rest) as Hk.
    cbn [runs_from map expand flat_map fst snd repeat app].
    constructor.
    + exists v. split; [now left | split; [now left | reflexivity]].
    + change (flat_map (fun r => repeat (fst r) (snd r))
                (map (fun r => (reread (fst r), snd r))
                   (runs_from fuel (skipn (run_length v rest) rest))))
        with (expand (map (fun r => (reread (fst r), snd r))
                        (runs_from fuel (skipn (run_length v rest) rest)))).
      assert (forall tail,
                 tail = (firstn (run_length v rest) rest
                         ++ skipn (run_length v rest) rest)%list ->
                 Forall2
                   (fun y x =>
                      exists h,
                        In h (v :: rest)
                        /\ (x = h \/ isclose x h = true) /\ y = reread h)
                   (repeat (reread v) (run_length v rest)
                    ++ expand
                         (map (fun r => (reread (fst r), snd r))
                            (runs_from fuel (skipn (run_length v rest) rest))))
                   tail) as Hgen;
        [| apply Hgen; now rewrite firstn_skipn].
      intros tail ->.
      apply Forall2_app.
      * pose proof (run_length_close v rest) as Hclose.
        assert (List.length (firstn (run_length v rest) rest)
                = run_length v rest) as Hlen
          by (rewrite length_firstn; lia).
        revert Hclose Hlen. generalize (firstn (run_length v rest) rest).
        generalize (run_length v rest) as k.
        induction k as [|k IHk]; intros f Hclose Hlen.
        -- destruct f; [constructor | discriminate].
        -- destruct f as [|x f]; [discriminate |].
           inversion Hclose; subst. cbn [repeat]. constructor.
           ++ exists v. split; [now left | split; [now right | reflexivity]].
           ++ apply IHk; [assumption | now injection Hlen].
      * assert (List.length (skipn (run_length v rest) rest) <= fuel) as Hs
          by (rewrite length_skipn; lia).
        specialize (IH _ Hs).
        eapply Forall2_impl; [| exact IH].
        intros y x (h & Hin & Hx & Hy). exists h. split; [| now split].
        right. now apply In_skipn in Hin.
Qed.

(** ** The equality test of the encoder *)

Lemma nth_skipn_add (l : list float) (m n : nat) :
  nth n (skipn m l) zero = nth (m + n) l zero.
Proof.
  revert l. induction m as [|m IH]; intros l; [reflexivity |].
  destruct l as [|x l]; [now destruct n |]. apply IH.
Qed.

Lemma run_length_nth (value : float) (rest : list float) :
  forall m,
    m < run_length value rest -> isclose (nth m rest zero) value = true.
Proof.
  induction rest as [|x rest IH]; intros m Hm; [simpl in Hm; lia |].
  cbn [run_length] in Hm. destruct (isclose x value) eqn:Hx; [| lia].
  destruct m as [|m]; [exact Hx |]. apply IH. lia.
Qed.

Lemma run_length_stop (value : float) (rest : list float) :
  run_length value rest < List.length rest ->
  isclose (nth (run_length value rest) rest zero) value = false.
Proof.
  induction rest as [|x rest IH]; intros H; [simpl in H; lia |].
  cbn [run_length] in *. destruct (isclose x value) eqn:Hx; [| exact Hx].
  apply IH. simpl in H. lia.
Qed.

Lemma sapp_inv_head (a b c : string) : (a ++ b = a ++ c)%string -> b = c.
Proof.
  induction a as [|x a IH]; [trivial |]. intros H. injection H. exact IH.
Qed.

Lemma format_6f_length (x : float) : 3 <= String.length (format_6f x).
Proof.
  destruct (is_finite x) eqn:Hfin.
  - rewrite (format_6f_finite x Hfin), !slength_app, fixed_digits_length.
    simpl. lia.
  - unfold format_6f. unfold is_finite in Hfin.
    destruct (is_nan x); [simpl; lia |].
    destruct (is_infinity x); [| discriminate].
    destruct (get_sign x); simpl; lia.
Qed.

Lemma format_6f_not_zero_token (x : float) : format_6f x <> "0".
Proof.
  intros H. pose proof (format_6f_length x) as Hl. rewrite H in Hl.
  simpl in Hl. lia.
Qed.

Lemma make_token_zero_iff (value : float) (n : nat) :
  make_token value n
  = (if (n =? 1)%nat then "0" else (str_nat n ++ "*0")%string)
  <-> isclose value zero = true.
Proof.
  unfold make_token. destruct (isclose value zero); split; try reflexivity.
  - intros H. exfalso. destruct (n =? 1)%nat.
    + now apply (format_6f_not_zero_token value).
    + apply sapp_inv_head in H. injection H.
      apply format_6f_not_zero_token.
  - discriminate.
Qed.

Lemma isclose_formula (x y : float) :
  isclose x y
  = ((abs (x - y) <=? 1e-8 + 1e-10 * abs y)%float && is_finite y
     || (x =? y)%float).
Proof. reflexivity. Qed.

Lemma isclose_zero_formula (x : float) :
  isclose x zero = ((abs (x - 0) <=? 1e-8)%float || (x =? 0)%float).
Proof.
  unfold isclose, np_isclose, rtol, default_atol.
  change (is_finite zero) with true. rewrite andb_true_r. reflexivity.
Qed.

(** ** The scatter *)

Lemma fold_min_spec (r : list Z) :
  forall x,
    (fold_left Z.min r x <= x)%Z
    /\ Forall (fun y => (fold_left Z.min r x <= y)%Z) r
    /\ (fold_left Z.min r x = x \/ In (fold_left Z.min r x) r).
Proof.
  induction r as [|y r IH]; intros x; cbn [fold_left].
  - repeat split; [lia | constructor | now left].
  - destruct (IH (Z.min x y)) as (H1 & H2 & H3). repeat split.
    + lia.
    + constructor; [lia | exact H2].
    + destruct H3 as [H3 | H3]; [| right; now right].
      destruct (Z.min_spec x y) as [[_ Hm] | [_ Hm]].
      * left. congruence.
      * right. left. congruence.
Qed.

Lemma fold_max_spec (r : list Z) :
  forall x,
    (x <= fold_left Z.max r x)%Z
    /\ Forall (fun y => (y <= fold_left Z.max r x)%Z) r
    /\ (fold_left Z.max r x = x \/ In (fold_left Z.max r x) r).
Proof.
  induction r as [|y r IH]; intros x; cbn [fold_left].
  - repeat split; [lia | constructor | now left].
  - destruct (IH (Z.max x y)) as (H1 & H2 & H3). repeat split.
    + lia.
    + constructor; [lia | exact H2].
    + destruct H3 as [H3 | H3]; [| right; now right].
      destruct (Z.max_spec x y) as [[_ Hm] | [_ Hm]].
      * right. left. congruence.
      * left. congruence.
Qed.

(** [np.min] and [np.max] of an array that is not empty are its least
    and greatest elements. *)
Lemma np_min_max_spec (ids : list Z) :
  ids <> [] ->
  exists lo hi,
    np_min ids = Ok lo /\ np_max ids = Ok hi
    /\ Forall (fun id => (lo <= id <= hi)%Z) ids
    /\ In lo ids /\ In hi ids.
Proof.
  destruct ids as [|x r]; [congruence |]. intros _.
  exists (fold_left Z.min r x), (fold_left Z.max r x).
  destruct (fold_min_spec r x) as (L1 & L2 & L3).
  destruct (fold_max_spec r x) as (U1 & U2 & U3).
  repeat split.
  - constructor; [lia |]. rewrite Forall_forall in *.
    intros y Hy. split; [now apply L2 | now apply U2].
  - destruct L3 as [-> | L3]; [now left | now right].
  - destruct U3 as [-> | U3]; [now left | now right].
Qed.

Lemma list_set_length (i : nat) (v : float) (a : list float) :
  List.length (list_set i v a) = List.length a.
Proof.
  revert i. induction a as [|x a IH]; intros i; [now destruct i |].
  destruct i; cbn [list_set List.length]; [reflexivity | now rewrite IH].
Qed.

Lemma list_set_same (i : nat) (v : float) (a : list float) :
  i < List.length a -> nth_error (list_set i v a) i = Some v.
Proof.
  revert i. induction a as [|x a IH]; intros i Hi; [simpl in Hi; lia |].
  destruct i; [reflexivity |]. cbn [list_set nth_error]. apply IH.
  simpl in Hi. lia.
Qed.

Lemma list_set_other (i p : nat) (v : float) (a : list float) :
  p <> i -> nth_error (list_set i v a) p = nth_error a p.
Proof.
  revert i p. induction a as [|x a IH]; intros i p Hp; [now destruct i |].
  destruct i, p; cbn [list_set nth_error]; try reflexivity; try congruence.
  apply IH. congruence.
Qed.

(** The indexed assignment: positions that are not indexed keep their
    value, and an indexed position holds the value of the last pair that
    names it. *)
Lemma put_each_spec (indices : list Z) :
  forall (vals a : list float),
    List.length indices = List.length vals ->
    Forall (fun k => (0 <= k < Z.of_nat (List.length a))%Z) indices ->
    exists b,
      put_each a indices vals = Ok b
      /\ List.length b = List.length a
      /\ (forall p,
            (forall k, In k indices -> Z.of_nat p <> k) ->
            nth_error b p = nth_error a p)
      /\ (forall j k v,
            nth_error indices j = Some k ->
            nth_error vals j = Some v ->
            (forall j' k', j < j' -> nth_error indices j' = Some k' -> k' <> k) ->
            nth_error b (Z.to_nat k) = Some v).
Proof.
  induction indices as [|k indices IH]; intros vals a Hlen Hrange.
  - exists a. repeat split. intros j k v H. now destruct j.
  - destruct vals as [|v vals]; [discriminate |].
    inversion Hrange as [|? ? Hk Hrest]; subst.
    cbn [put_each].
    assert ((k <? - Z.of_nat (List.length a))%Z = false) as -> by lia.
    assert ((Z.of_nat (List.length a) <=? k)%Z = false) as -> by lia.
    assert ((k <? 0)%Z = false) as -> by lia.
    cbn [orb].
    destruct (IH vals (list_set (Z.to_nat k) v a)) as (b & Hb & Hl & Hkeep & Hput).
    { simpl in Hlen. lia. }
    { now rewrite list_set_length. }
    exists b. split; [exact Hb |]. split; [now rewrite Hl, list_set_length |].
    split.
    + intros p Hp. rewrite Hkeep by (intros k' Hk'; apply Hp; now right).
      apply list_set_other. intros ->. apply (Hp k); [now left | lia].
    + intros j k0 v0 Hj Hv Hlast. destruct j as [|j].
      * cbn [nth_error] in Hj, Hv. injection Hj as ->. injection Hv as ->.
        rewrite Hkeep.
        -- apply list_set_same. lia.
        -- intros k' Hk' Heq. apply In_nth_error in Hk' as [j' Hj'].
           apply (Hlast (S j') k'); [lia | exact Hj' | lia].
      * apply (Hput j k0 v0 Hj Hv). intros j' k' Hlt Hj'.
        apply (Hlast (S j') k'); [lia | exact Hj'].
Qed.

(** ** The decoders and malformed tokens *)

(** A token that is no count run and no float is skipped. *)
Lemma decode_token_skipped (values : list float) (token : string) :
  re_match_count_run token = None ->
  python_float token = None ->
  decode_token values token = Ok values.
Proof. intros Hm Hf. unfold decode_token. now rewrite Hm, Hf. Qed.

(** The loop goes on with the next token, the values unchanged. *)
Lemma decode_tokens_skip (values : list float) (token : string)
    (tokens : list string) :
  re_match_count_run token = None ->
  python_float token = None ->
  decode_tokens values (token :: tokens) = decode_tokens values tokens.
Proof.
  intros Hm Hf. cbn [decode_tokens].
  now rewrite (decode_token_skipped values token Hm Hf).
Qed.

(** The exceptions of the token loops are those of a count run: of
    [int], of [float] and of the repetition. *)
Lemma decode_token_raises (values : list float) (token : string) (e : exn) :
  decode_token values token = Raise e -> count_run_exn e.
Proof.
  unfold decode_token, python_int, list_repeat.
  destruct (re_match_count_run token) as [[g1 g2] |].
  - destruct (int_max_str_digits <? N.of_nat (String.length g1))%N;
      cbn [bind]; [intros H; injection H as <-; exact I |].
    destruct (python_float g2);
      [| intros H; injection H as <-; exact I].
    destruct (PY_SSIZE_T_MAX <? digits_value g1 0)%N;
      cbn [bind]; [intros H; injection H as <-; exact I |].
    destruct (max_items <? digits_value g1 0)%N;
      cbn [bind]; [intros H; injection H as <-; exact I | discriminate].
  - destruct (python_float token); discriminate.
Qed.

Lemma decode_tokens_raises (tokens : list string) :
  forall values e,
    decode_tokens values tokens = Raise e -> count_run_exn e.
Proof.
  induction tokens as [|t tokens IH]; intros values e; [discriminate |].
  cbn [decode_tokens]. destruct (decode_token values t) as [v |e'] eqn:Ht.
  - apply IH.
  - cbn [bind]. intros H. injection H as <-.
    now apply (decode_token_raises values t).
Qed.

Lemma decode_lines_raises (lines : list string) :
  forall values e,
    decode_lines values lines = Raise e -> count_run_exn e.
Proof.
  induction lines as [|l lines IH]; intros values e; [discriminate |].
  cbn [decode_lines].
  destruct (is_empty (strip l) || startswith "**" (strip l)); [apply IH |].
  destruct (decode_tokens values (split (strip l))) as [v | e'] eqn:Ht.
  - apply IH.
  - cbn [bind]. intros H. injection H as <-.
    now apply (decode_tokens_raises _ _ _ Ht).
Qed.

(** * The claims *)

(** ** The round trip *)

(** C1, as the code has it.  For an array of finite values (of a
    length an array can have) and any line width, the document of the
    encoder is decoded without error into an array of the same length,
    in which every element is replaced by what is read back from the
    token of its run: the first element [h] of the run, to which the
    element is equal or close, printed with six decimals (zero for the
    zero token). *)
Theorem C1_round_trip_six_decimals (array : list float) (max_line_length : Z) :
  Forall (fun x => is_finite x = true) array ->
  allocatable (List.length array) ->
  exists lines decoded,
    compress_array_to_cmg_format array max_line_length = Some lines
    /\ decompress_cmg_format_to_array (written_lines header lines) = Ok decoded
    /\ decoded = expand (map (fun r => (reread (fst r), snd r)) (runs array))
    /\ List.length decoded = List.length array
    /\ Forall2
         (fun y x =>
            exists h,
              In h array /\ (x = h \/ isclose x h = true) /\ y = reread h)
         decoded array.
Proof.
  intros Hfin Hsize.
  destruct (compress_array_segments array max_line_length)
    as (segs & Heq & Hc & Hfit).
  pose proof (runs_from_elementwise (List.length array) array (le_n _)) as Hel.
  exists (map join segs),
    (expand (map (fun r => (reread (fst r), snd r)) (runs array))).
  split; [exact Heq |]. split; [| split; [reflexivity | split]].
  - unfold decompress_cmg_format_to_array, written_lines.
    cbn [map decode_lines].
    assert (strip (header ++ newline) = header) as -> by reflexivity.
    cbn [header is_empty startswith orb Ascii.eqb Bool.eqb andb].
    rewrite decode_lines_segments.
    + rewrite Hc. unfold cmg_tokens.
      now rewrite (decode_run_tokens _ (runs_finite array Hfin Hsize)).
    + eapply Forall_impl; [| exact Hfit]. now intros seg [Hne _].
    + apply Forall_concat. rewrite Hc. apply cmg_tokens_words.
    + apply Forall_concat. rewrite Hc. unfold cmg_tokens.
      apply Forall_map, Forall_forall. intros r _.
      apply head_not_star_make_token.
  - exact (Forall2_length Hel).
  - exact Hel.
Qed.

Lemma C1_round_trip_six_decimals_witness :
  Forall (fun x => is_finite x = true) [0; 0; 0; 1; 1; 2.5]%float
  /\ allocatable (List.length [0; 0; 0; 1; 1; 2.5]%float)
  /\ exists lines decoded,
       compress_array_to_cmg_format [0; 0; 0; 1; 1; 2.5]%float 80 = Some lines
       /\ decompress_cmg_format_to_array (written_lines header lines)
          = Ok decoded
       /\ decoded
          = expand (map (fun r => (reread (fst r), snd r))
                      (runs [0; 0; 0; 1; 1; 2.5]%float))
       /\ List.length decoded = List.length [0; 0; 0; 1; 1; 2.5]%float
       /\ Forall2
            (fun y x =>
               exists h,
                 In h [0; 0; 0; 1; 1; 2.5]%float
                 /\ (x = h \/ isclose x h = true) /\ y = reread h)
            decoded [0; 0; 0; 1; 1; 2.5]%float.
Proof.
  assert (allocatable (List.length [0; 0; 0; 1; 1; 2.5]%float)) as Hsize
    by (vm_compute; discriminate).
  split; [repeat constructor |]. split; [exact Hsize |].
  apply (C1_round_trip_six_decimals [0; 0; 0; 1; 1; 2.5]%float 80);
    [repeat constructor | exact Hsize].
Defined.

(** On the array of the example the six decimals are exact and the
    round trip gives the array back. *)
Example round_trip_example :
  compress_array_to_cmg_format [0; 0; 0; 1; 1; 2.5]%float 80
  = Some ["3*0 2*1.000000 2.500000"]
  /\ decompress_cmg_format_to_array
       (written_lines header ["3*0 2*1.000000 2.500000"])
     = Ok [0; 0; 0; 1; 1; 2.5]%float.
Proof. split; vm_compute; reflexivity. Qed.

(** The round trip of the specification fails on the one-element array
    [0.1234567] with width 80: the document holds [0.123457], which is
    read back as another number. *)
Lemma C1_counterexample :
  compress_array_to_cmg_format [0.1234567%float] 80 = Some ["0.123457"]
  /\ decompress_cmg_format_to_array (written_lines header ["0.123457"])
     = Ok [0.123457%float]
  /\ np_array_equal [0.123457%float] [0.1234567%float] = false.
Proof. repeat split; vm_compute; reflexivity. Qed.

(** ** The equality test of the encoder *)

(** C2, as the code has it.  The test of the encoder is NumPy's
    [isclose] with [rtol = 1e-10] and the default [atol = 1e-8]:
    an element [x] is close to the first element [y] of the run when
    [|x - y| <= 1e-8 + 1e-10 * |y|] (or [x == y]).  The run that starts at
    index [i] has [count] elements: those after the first are close to
    the first, and the one that follows the run, if any, is not.  The
    token of the run is the zero token exactly when its first element is
    close to zero, that is, when [|value| <= 1e-8]. *)
Theorem C2_tolerance_with_absolute_term (array : list float) (i : nat) :
  i < List.length array ->
  (forall x y,
      isclose x y
      = ((abs (x - y) <=? 1e-8 + 1e-10 * abs y)%float && is_finite y
         || (x =? y)%float))
  /\ exists count,
       count_run (List.length array) array i (nth i array zero) 1 = Some count
       /\ 1 <= count /\ i + count <= List.length array
       /\ (forall j, 1 <= j < count ->
             isclose (nth (i + j) array zero) (nth i array zero) = true)
       /\ (i + count < List.length array ->
             isclose (nth (i + count) array zero) (nth i array zero) = false)
       /\ (forall n,
             make_token (nth i array zero) n
             = (if (n =? 1)%nat then "0" else (str_nat n ++ "*0")%string)
             <-> isclose (nth i array zero) zero = true)
       /\ isclose (nth i array zero) zero
          = ((abs (nth i array zero - 0) <=? 1e-8)%float
             || (nth i array zero =? 0)%float).
Proof.
  intros Hi. split; [exact isclose_formula |].
  set (value := nth i array zero).
  set (rest := skipn (S i) array).
  exists (1 + run_length value rest).
  pose proof (run_length_le value rest) as Hk.
  assert (List.length rest = List.length array - S i) as Hrest
    by (unfold rest; now rewrite length_skipn).
  split; [| split; [lia | split; [lia | split; [| split; [| split]]]]].
  - rewrite count_run_spec by lia.
    replace (i + 1) with (S i) by lia. reflexivity.
  - intros j Hj.
    replace (i + j) with (S i + (j - 1)) by lia.
    rewrite <- nth_skipn_add. apply run_length_nth. fold rest. lia.
  - intros Hlt.
    replace (i + (1 + run_length value rest))
      with (S i + run_length value rest) by lia.
    rewrite <- nth_skipn_add. apply run_length_stop. fold rest. lia.
  - intros n. apply make_token_zero_iff.
  - apply isclose_zero_formula.
Qed.

Lemma C2_tolerance_with_absolute_term_witness :
  1 < List.length [1; 1; 1.000000005; 2]%float
  /\ exists count,
       count_run 4 [1; 1; 1.000000005; 2]%float 1 1%float 1 = Some count
       /\ 1 <= count /\ 1 + count <= 4
       /\ (forall j, 1 <= j < count ->
             isclose (nth (1 + j) [1; 1; 1.000000005; 2]%float zero) 1 = true)
       /\ (1 + count < 4 ->
             isclose (nth (1 + count) [1; 1; 1.000000005; 2]%float zero) 1
             = false).
Proof.
  split; [simpl; lia |].
  destruct (C2_tolerance_with_absolute_term [1; 1; 1.000000005; 2]%float 1
              ltac:(simpl; lia))
    as (_ & count & H1 & H2 & H3 & H4 & H5 & _).
  exists count. repeat split; assumption.
Defined.

(** The test of the specification, [|a - b| <= 1e-10 * |b|], is not the
    one of the code: [1.000000005] joins the run of [1.0], and [5e-9] is
    printed as the zero token, though neither passes that test. *)
Lemma C2_counterexample :
  (compress_array_to_cmg_format [1; 1.000000005]%float 80
   = Some ["2*1.000000"]
   /\ (abs (1 - 1.000000005) <=? 1e-10 * abs 1.000000005)%float = false
   /\ (abs (1.000000005 - 1) <=? 1e-10 * abs 1)%float = false)
  /\ (compress_array_to_cmg_format [5e-9%float] 80 = Some ["0"]
      /\ (abs (5e-9 - 0) <=? 1e-10 * abs 0)%float = false
      /\ (5e-9 =? 0)%float = false).
Proof. repeat split; vm_compute; reflexivity. Qed.

(** ** Validation in the scatter *)

(** C3.  [generate_full_porosity] raises the mismatch error with both
    lengths when the lengths differ; for equal lengths and an identifier
    outside [1, total_cells] it raises the range error with the least
    and the greatest identifier and [total_cells]; whenever it raises,
    nothing has been saved and no array is returned. *)
Theorem C3_scatter_validation (ids : list Z) (values : list float)
    (total_cells : Z) :
  (List.length ids <> List.length values ->
   generate_full_porosity ids values total_cells
   = {| returned := Raise (Mismatch (List.length ids) (List.length values));
        saved := None |})
  /\ (List.length ids = List.length values ->
      Exists (fun id => (id < 1 \/ total_cells < id)%Z) ids ->
      exists lo hi,
        Forall (fun id => (lo <= id <= hi)%Z) ids /\ In lo ids /\ In hi ids
        /\ (lo < 1 \/ total_cells < hi)%Z
        /\ generate_full_porosity ids values total_cells
           = {| returned := Raise (CellIdsOutOfRange lo hi total_cells);
                saved := None |})
  /\ (forall e,
        returned (generate_full_porosity ids values total_cells) = Raise e ->
        saved (generate_full_porosity ids values total_cells) = None).
Proof.
  split; [| split].
  - intros Hne. unfold generate_full_porosity, full_porosity_array.
    apply Nat.eqb_neq in Hne. now rewrite Hne.
  - intros Heq Hex.
    assert (ids <> []) as Hids by (intros ->; inversion Hex).
    destruct (np_min_max_spec ids Hids) as (lo & hi & Hlo & Hhi & Hall & Hin).
    exists lo, hi. split; [exact Hall |]. split; [apply Hin |].
    split; [apply Hin |].
    assert (lo < 1 \/ total_cells < hi)%Z as Hout.
    { apply Exists_exists in Hex as (id & Hid & Hbad).
      rewrite Forall_forall in Hall. specialize (Hall id Hid). lia. }
    split; [exact Hout |].
    unfold generate_full_porosity, full_porosity_array.
    apply Nat.eqb_eq in Heq. rewrite Heq, Hlo, Hhi. cbn [negb bind].
    assert ((lo <? 1)%Z || (total_cells <? hi)%Z = true) as ->
      by (apply orb_true_iff; lia).
    reflexivity.
  - intros e. unfold generate_full_porosity.
    now destruct (full_porosity_array ids values total_cells).
Qed.

Lemma C3_scatter_validation_witness :
  generate_full_porosity [1; 2]%Z [1%float] 10
  = {| returned := Raise (Mismatch 2 1); saved := None |}
  /\ (exists lo hi,
         Forall (fun id => (lo <= id <= hi)%Z) [0%Z] /\ In lo [0%Z]
         /\ In hi [0%Z] /\ (lo < 1 \/ 10 < hi)%Z
         /\ generate_full_porosity [0%Z] [1%float] 10
            = {| returned := Raise (CellIdsOutOfRange lo hi 10);
                 saved := None |}).
Proof.
  split.
  - apply (C3_scatter_validation [1; 2]%Z [1%float] 10). simpl. lia.
  - apply (C3_scatter_validation [0%Z] [1%float] 10); [reflexivity |].
    constructor. lia.
Defined.

(** ** Zero fill and the last write *)




(** ** Malformed tokens *)

(** C5.  The token [2*abc] starts like a count run, so the pattern
    matches it with an empty value, and [float] of the empty text raises
    outside any [try]: both decoders abort on the line
    [1.500000 2*abc 3*0], though the token is neither a count run with a
    value nor a float. *)
Theorem C5_malformed_count_run_aborts :
  re_match_count_run "2*abc" = Some ("2", "")
  /\ python_float "" = None
  /\ python_float "2*abc" = None
  /\ decompress_cmg_format_to_array
       (written_lines header ["1.500000 2*abc 3*0"])
     = Raise (FloatValueError "")
  /\ read_cmg_format_file (written_lines header ["1.500000 2*abc 3*0"])
     = Raise (FloatValueError "").
Proof. repeat split. Qed.

(** ** The empty result *)

(** The example of the specification: 48 zeros and three times 1.5. *)
Example decode_example :
  decompress_cmg_format_to_array ["48*0 3*1.500000"]
  = Ok (repeat zero 48 ++ repeat 1.5%float 3).
Proof. vm_compute. reflexivity. Qed.

(** C6.  What [read_cmg_format_file] answers follows from how the loop
    over the lines ended.  It never returns an empty array: it raises
    its "no numerical values" error exactly when the loop ended with no
    value, and it returns the values exactly when the loop ended with at
    least one.  But the loop can stop on a count run with an exception
    of its own, which is then the exception of the reader, also after
    values have been decoded: on the line [1.500000 2*abc 3*0] the value
    1.5 has been read when the token [2*abc] stops the reader with the
    error of [float]. *)
Theorem C6_empty_result_failure :
  (forall lines,
      read_cmg_format_file lines <> Ok []
      /\ (read_cmg_format_file lines = Raise NoNumericalValues
          <-> decompress_cmg_format_to_array lines = Ok [])
      /\ (forall values,
            read_cmg_format_file lines = Ok values
            <-> decompress_cmg_format_to_array lines = Ok values
                /\ values <> [])
      /\ (forall e,
            decompress_cmg_format_to_array lines = Raise e
            <-> read_cmg_format_file lines = Raise e
                /\ e <> NoNumericalValues))
  /\ decode_tokens [] ["1.500000"] = Ok [1.5%float]
  /\ decode_token [1.5%float] "2*abc" = Raise (FloatValueError "")
  /\ read_cmg_format_file (written_lines header ["1.500000 2*abc 3*0"])
     = Raise (FloatValueError "").
Proof.
  split; [| repeat split].
  intros lines. unfold read_cmg_format_file, decompress_cmg_format_to_array.
  destruct (decode_lines [] lines) as [[|v vs] | e] eqn:Hd; cbn [bind].
  - split; [discriminate |]. split; [now split |]. split.
    + intros values. split; [discriminate |].
      intros [H Hne]. injection H as <-. congruence.
    + intros e. split; [discriminate | intros [H Hne]; congruence].
  - split; [discriminate |]. split; [split; discriminate |]. split.
    + intros values. split; [intros H; split; [exact H |] | now intros [H _]].
      injection H as <-. discriminate.
    + intros e. split; [discriminate | now intros [H _]].
  - pose proof (decode_lines_raises _ _ _ Hd) as He.
    assert (e <> NoNumericalValues) as Hne by (intros ->; exact He).
    split; [discriminate |]. split; [split; [congruence | discriminate] |].
    split.
    + intros values. split; [discriminate | now intros [H _]].
    + intros e'. split; [intros H; injection H as <-; now split |].
      now intros [H _].
Qed.

(** ** Line wrapping *)

(** C7.  Every line of the document of [compress_array_to_cmg_format] is
    at most [max_line_length] characters long, except a line that is a
    single token longer than that; the lines are the tokens in the order
    of their creation, joined by single spaces: splitting the lines at
    white space gives back the token sequence, no token is cut. *)
Theorem C7_line_wrapping (array : list float) (max_line_length : Z) :
  exists lines,
    compress_array_to_cmg_format array max_line_length = Some lines
    /\ List.concat (map split lines) = cmg_tokens array
    /\ Forall (fun line => line = join (split line)) lines
    /\ Forall
         (fun line =>
            (Z.of_nat (String.length line) <= max_line_length)%Z
            \/ (In line (cmg_tokens array)
                /\ (max_line_length < Z.of_nat (String.length line))%Z))
         lines.
Proof.
  destruct (compress_array_segments array max_line_length)
    as (segs & Heq & Hc & Hfit).
  exists (map join segs). split; [exact Heq |].
  pose proof (cmg_tokens_words array) as Hw. rewrite <- Hc in Hw.
  apply Forall_concat in Hw.
  assert (map split (map join segs) = segs) as Hsplit.
  { rewrite map_map. rewrite <- (map_id segs) at 2.
    apply map_ext_in. intros seg Hin. apply split_join.
    rewrite Forall_forall in Hw. now apply Hw. }
  repeat split.
  - now rewrite Hsplit.
  - apply Forall_map, Forall_forall. intros seg Hin.
    rewrite split_join; [reflexivity |].
    rewrite Forall_forall in Hw. now apply Hw.
  - apply Forall_map, Forall_forall. intros seg Hin.
    rewrite Forall_forall in Hfit. destruct (Hfit seg Hin) as [_ [Hle | [t ->]]].
    + now left.
    + cbn [join].
      destruct (Z.le_gt_cases (Z.of_nat (String.length t)) max_line_length)
        as [Hle | Hgt]; [now left | right].
      split; [| exact Hgt].
      rewrite <- Hc. apply in_concat. exists [t]. split; [exact Hin | now left].
Qed.

(** ** The example of the specification *)

(** C8.  The array [0, 0, 0, 1.0, 1.0, 2.5] with line width 80 gives the
    tokens [3*0], [2*1.000000] and [2.500000], on one line. *)
Theorem C8_compression_example :
  cmg_tokens [0; 0; 0; 1; 1; 2.5]%float = ["3*0"; "2*1.000000"; "2.500000"]
  /\ compress_array_to_cmg_format [0; 0; 0; 1; 1; 2.5]%float 80
     = Some ["3*0 2*1.000000 2.500000"].
Proof. split; vm_compute; reflexivity. Qed.

(** ** Arrays of different lengths *)

(** The subtraction of line 272 would raise on such arrays. *)
Example subtract_needs_equal_lengths :
  np_subtract [1; 2]%float [1; 2; 3]%float = Raise (BroadcastError 2 3).
Proof. reflexivity. Qed.

(** C9.  For two arrays that are not empty and differ in length,
    [compare_arrays] raises nothing: it returns the dictionary with the
    error and both sizes. *)
Theorem C9_length_mismatch (np_mean : list float -> float)
    (array1 array2 : list float) (tolerance : float)
    (file1_name file2_name : string) :
  array1 <> [] -> array2 <> [] ->
  List.length array1 <> List.length array2 ->
  compare_arrays np_mean array1 array2 tolerance file1_name file2_name
  = Ok (SizeError false "Different array sizes"
          (List.length array1) (List.length array2)).
Proof.
  intros H1 H2 Hne. unfold compare_arrays.
  destruct array1 as [|x1 a1]; [congruence |].
  destruct array2 as [|x2 a2]; [congruence |].
  cbn [List.length Nat.eqb]. cbn [List.length] in Hne.
  apply Nat.eqb_neq in Hne. cbn [Nat.eqb] in Hne. now rewrite Hne.
Qed.

Lemma C9_length_mismatch_witness :
  ([1; 2]%float <> [] /\ [1; 2; 3]%float <> []
   /\ List.length [1; 2]%float <> List.length [1; 2; 3]%float)
  /\ compare_arrays (fun _ => zero) [1; 2]%float [1; 2; 3]%float 1e-10
       "File 1" "File 2"
     = Ok (SizeError false "Different array sizes" 2 3).
Proof.
  split; [repeat split; discriminate |].
  apply (C9_length_mismatch (fun _ => zero) [1; 2]%float [1; 2; 3]%float);
    discriminate.
Defined.

(** ** Count runs with trailing characters *)

(** C10, as the code has it.  A token that starts with digits, a star
    and a numeral, and goes on with characters that do not continue the
    numeral, is decoded as the count run of the numeral, if its count is
    one the interpreter takes (at most 4300 digits, and no more copies
    than a list can hold): the value of the numeral is appended as many
    times as the count says, and the other characters are dropped.  With
    a greater count the token is an error: of [int] for too many digits,
    else of the repetition. *)
Theorem C10_prefix_match (ds sgn ip dot fp rest : string)
    (values : list float) :
  string_forallb is_digit ds = true ->
  is_empty ds = false ->
  numeral sgn ip dot fp ->
  ends_numeral dot rest ->
  let token := (ds ++ "*" ++ sgn ++ ip ++ dot ++ fp ++ rest)%string in
  let digits := N.of_nat (String.length ds) in
  let count := digits_value ds 0 in
  python_float (sgn ++ ip ++ dot ++ fp) = Some (numeral_value sgn ip fp)
  /\ ((digits <= int_max_str_digits)%N ->
      (count <= max_items)%N ->
      decode_token values token
      = Ok (values ++ repeat (numeral_value sgn ip fp) (N.to_nat count)))
  /\ ((int_max_str_digits < digits)%N ->
      decode_token values token = Raise (IntDigitsLimit (String.length ds)))
  /\ ((digits <= int_max_str_digits)%N ->
      (max_items < count <= PY_SSIZE_T_MAX)%N ->
      decode_token values token = Raise MemoryError)
  /\ ((digits <= int_max_str_digits)%N ->
      (PY_SSIZE_T_MAX < count)%N ->
      decode_token values token = Raise OverflowError).
Proof.
  intros Hds Hne Hnum Hend token digits count.
  pose proof (python_float_numeral sgn ip dot fp Hnum) as Hf.
  split; [exact Hf |].
  unfold decode_token, token.
  rewrite (re_match_numeral ds sgn ip dot fp rest Hds Hne Hnum Hend), Hf.
  unfold python_int, list_repeat. fold digits count.
  assert (max_items < PY_SSIZE_T_MAX)%N as Hlt by reflexivity.
  split; [| split; [| split]].
  - intros Hd Hc.
    apply N.ltb_ge in Hd as ->. cbn [bind].
    assert ((PY_SSIZE_T_MAX <? count)%N = false) as ->
      by (apply N.ltb_ge; lia).
    apply N.ltb_ge in Hc as ->. reflexivity.
  - intros Hd. apply N.ltb_lt in Hd as ->. reflexivity.
  - intros Hd [Hc1 Hc2].
    apply N.ltb_ge in Hd as ->. cbn [bind].
    apply N.ltb_ge in Hc2 as ->. apply N.ltb_lt in Hc1 as ->. reflexivity.
  - intros Hd Hc.
    apply N.ltb_ge in Hd as ->. cbn [bind].
    apply N.ltb_lt in Hc as ->. reflexivity.
Qed.

Lemma C10_prefix_match_witness :
  (string_forallb is_digit "2" = true /\ is_empty "2" = false
   /\ numeral "" "3" "." "5" /\ ends_numeral "." "xyz")
  /\ python_float "3.5" = Some 3.5%float
  /\ decode_token [] "2*3.5xyz" = Ok [3.5; 3.5]%float.
Proof.
  assert (numeral "" "3" "." "5") as Hnum
    by (split; [now left | reflexivity | reflexivity | now left | reflexivity]).
  assert (ends_numeral "." "xyz") as Hend by (split; [reflexivity | discriminate]).
  split;
    [split; [reflexivity | split; [reflexivity | split; assumption]] |].
  destruct (C10_prefix_match "2" "" "3" "." "5" "xyz" [] eq_refl eq_refl
              Hnum Hend) as (Hf & Hok & _).
  split; [exact Hf |].
  apply Hok; vm_compute; discriminate.
Defined.

(** The claim is about every count.  The count 2^63 is no index-sized
    integer: the token is an error. *)
Lemma C10_counterexample :
  (string_forallb is_digit "9223372036854775808" = true
   /\ is_empty "9223372036854775808" = false
   /\ numeral "" "1" "." "5" /\ ends_numeral "." "xyz")
  /\ re_match_count_run "9223372036854775808*1.5xyz"
     = Some ("9223372036854775808", "1.5")
  /\ python_float "1.5" = Some 1.5%float
  /\ decode_token [] "9223372036854775808*1.5xyz" = Raise OverflowError
  /\ read_cmg_format_file
       (written_lines header ["9223372036854775808*1.5xyz"])
     = Raise OverflowError.
Proof.
  assert (numeral "" "1" "." "5") as Hnum
    by (split; [now left | reflexivity | reflexivity | now left | reflexivity]).
  assert (ends_numeral "." "xyz") as Hend by (split; [reflexivity | discriminate]).
  split;
    [split; [reflexivity | split; [reflexivity | split; assumption]] |].
  split; [reflexivity |]. split; [reflexivity |].
  split; vm_compute; reflexivity.
Qed.

(** * Further properties *)

(** ** Documents and their tokens *)

Lemma decode_lines_tokens (lines : list string) :
  forall values,
    decode_lines values lines = decode_tokens values (data_tokens lines).
Proof.
  induction lines as [|l lines IH]; intros values; [reflexivity |].
  cbn [decode_lines data_tokens flat_map].
  change (flat_map _ lines) with (data_tokens lines).
  destruct (is_empty (strip l) || startswith "**" (strip l)).
  - apply IH.
  - rewrite decode_tokens_app.
    destruct (decode_tokens values (split (strip l))); [apply IH | reflexivity].
Qed.

Lemma data_tokens_app (l1 l2 : list string) :
  data_tokens (l1 ++ l2) = data_tokens l1 ++ data_tokens l2.
Proof. apply flat_map_app. Qed.

Lemma data_tokens_segments (segs : list (list string)) :
  Forall (fun seg => seg <> []) segs ->
  Forall (Forall (fun t => is_word t = true)) segs ->
  Forall (Forall (fun t => head_not_star t = true)) segs ->
  data_tokens (map (fun line => (line ++ newline)%string) (map join segs))
  = List.concat segs.
Proof.
  induction segs as [|seg segs IH]; intros Hne Hw Hs; [reflexivity |].
  inversion Hne as [|? ? Hne1 Hne2]; subst.
  inversion Hw as [|? ? Hw1 Hw2]; subst.
  inversion Hs as [|? ? Hs1 Hs2]; subst.
  cbn [map data_tokens flat_map List.concat].
  change (flat_map _ (map _ (map join segs)))
    with (data_tokens (map (fun line => (line ++ newline)%string)
                         (map join segs))).
  rewrite (strip_line seg Hw1 Hne1), (join_nonempty seg Hw1 Hne1).
  rewrite startswith_join by (destruct seg; [exact I | now inversion Hs1]).
  cbn [orb]. now rewrite (split_join seg Hw1), IH.
Qed.

(** The tokens of the document of the encoder are the tokens it
    created. *)
Lemma compress_array_data_tokens (array : list float) (w : Z) :
  exists lines,
    compress_array_to_cmg_format array w = Some lines
    /\ data_tokens (written_lines header lines) = cmg_tokens array.
Proof.
  destruct (compress_array_segments array w) as (segs & Heq & Hc & Hfit).
  exists (map join segs). split; [exact Heq |].
  unfold written_lines. cbn [map data_tokens flat_map].
  assert (strip (header ++ newline) = header) as -> by reflexivity.
  cbn [header is_empty startswith orb Ascii.eqb Bool.eqb andb app].
  change (flat_map _ (map _ (map join segs)))
    with (data_tokens (map (fun line => (line ++ newline)%string)
                         (map join segs))).
  rewrite data_tokens_segments; [exact Hc | | |].
  - eapply Forall_impl; [| exact Hfit]. now intros seg [Hne _].
  - apply Forall_concat. rewrite Hc. apply cmg_tokens_words.
  - apply Forall_concat. rewrite Hc. unfold cmg_tokens.
    apply Forall_map, Forall_forall. intros r _.
    apply head_not_star_make_token.
Qed.

(** X1.  What the decoders make of the document of the encoder does not
    depend on the line width: the values, or the exception, are those of
    the token sequence. *)
Theorem X1_width_independence (array : list float) (w1 w2 : Z) :
  exists lines1 lines2,
    compress_array_to_cmg_format array w1 = Some lines1
    /\ compress_array_to_cmg_format array w2 = Some lines2
    /\ decompress_cmg_format_to_array (written_lines header lines1)
       = decode_tokens [] (cmg_tokens array)
    /\ decompress_cmg_format_to_array (written_lines header lines2)
       = decompress_cmg_format_to_array (written_lines header lines1)
    /\ read_cmg_format_file (written_lines header lines2)
       = read_cmg_format_file (written_lines header lines1).
Proof.
  destruct (compress_array_data_tokens array w1) as (l1 & H1 & T1).
  destruct (compress_array_data_tokens array w2) as (l2 & H2 & T2).
  exists l1, l2. unfold read_cmg_format_file, decompress_cmg_format_to_array.
  rewrite !decode_lines_tokens, T1, T2. now repeat split.
Qed.

Lemma decode_token_acc (values : list float) (token : string) :
  decode_token values token
  = (vs <- decode_token [] token ;; Ok (values ++ vs)).
Proof.
  unfold decode_token.
  destruct (re_match_count_run token) as [[g1 g2] |].
  - destruct (python_int g1) as [count | e]; cbn [bind]; [| reflexivity].
    destruct (python_float g2) as [value |]; [| reflexivity].
    now destruct (list_repeat value count).
  - destruct (python_float token); cbn [bind app]; [reflexivity |].
    now rewrite app_nil_r.
Qed.

Lemma decode_tokens_acc (tokens : list string) :
  forall values,
    decode_tokens values tokens
    = (vs <- decode_tokens [] tokens ;; Ok (values ++ vs)).
Proof.
  induction tokens as [|t tokens IH]; intros values.
  - cbn. now rewrite app_nil_r.
  - cbn [decode_tokens]. rewrite (decode_token_acc values t).
    destruct (decode_token [] t) as [v | e]; [| reflexivity].
    cbn [bind]. rewrite IH, (IH v).
    destruct (decode_tokens [] tokens) as [vs | e]; [| reflexivity].
    cbn [bind]. now rewrite app_assoc.
Qed.

(** X2.  Decoding two documents one after the other: the values of the
    first followed by those of the second, or the first exception. *)
Theorem X2_documents_concatenate (lines1 lines2 : list string) :
  decompress_cmg_format_to_array (lines1 ++ lines2)
  = (values1 <- decompress_cmg_format_to_array lines1 ;;
     values2 <- decompress_cmg_format_to_array lines2 ;;
     Ok (values1 ++ values2)).
Proof.
  unfold decompress_cmg_format_to_array.
  rewrite !decode_lines_tokens, data_tokens_app, decode_tokens_app.
  destruct (decode_tokens [] (data_tokens lines1)) as [v1 | e]; [| reflexivity].
  cbn [bind]. apply decode_tokens_acc.
Qed.

(** ** Which tokens abort the decoders *)








(** The limits of the count.  A count of 4301 digits is refused by
    [int], whatever its value, and the counter answers 0; the count
    2^60 is more than a list holds.  The counter does not convert the
    value of a count run: it counts the two of [2*abc]. *)
Example count_limit_examples :
  let long := (String.concat "" (repeat "0" 4300) ++ "2*1.5")%string in
  decode_token [] long = Raise (IntDigitsLimit 4301)
  /\ count_cmg_data_points_accurate (Some [long]) = 0
  /\ decode_token [] "1152921504606846976*1.5" = Raise MemoryError
  /\ decode_token [] "9223372036854775807*1.5" = Raise MemoryError
  /\ decode_token [] "9223372036854775808*1.5" = Raise OverflowError
  /\ count_cmg_data_points_accurate (Some ["3*1.5 2*abc"]) = 5.
Proof.
  cbv zeta. repeat split; vm_compute; reflexivity.
Qed.

(** ** The counter and the decoders *)

Lemma count_tokens_app (tokens1 tokens2 : list string) :
  forall n,
    count_tokens n (tokens1 ++ tokens2)
    = (n' <- count_tokens n tokens1 ;; count_tokens n' tokens2).
Proof.
  induction tokens1 as [|t tokens1 IH]; intros n; [reflexivity |].
  cbn [app count_tokens].
  destruct (count_token n t) as [n' | e]; [apply IH | reflexivity].
Qed.

Lemma count_lines_tokens (lines : list string) :
  forall n, count_lines n lines = count_tokens n (data_tokens lines).
Proof.
  induction lines as [|l lines IH]; intros n; [reflexivity |].
  cbn [count_lines data_tokens flat_map].
  change (flat_map _ lines) with (data_tokens lines).
  destruct (is_empty (strip l) || startswith "**" (strip l)).
  - apply IH.
  - rewrite count_tokens_app.
    destruct (count_tokens n (split (strip l))); [apply IH | reflexivity].
Qed.

Lemma list_repeat_inv (value : float) (count : N) (copies : list float) :
  list_repeat value count = Ok copies ->
  copies = repeat value (N.to_nat count).
Proof.
  unfold list_repeat.
  destruct (PY_SSIZE_T_MAX <? count)%N; [discriminate |].
  destruct (max_items <? count)%N; [discriminate |].
  intros H. now injection H as <-.
Qed.

(** Where the decoder takes a token, [int] has converted its count, and
    the counter adds what the decoder appends. *)
Lemma decode_token_count (values values' : list float) (token : string) :
  decode_token values token = Ok values' ->
  count_token (List.length values) token = Ok (List.length values').
Proof.
  unfold decode_token, count_token.
  destruct (re_match_count_run token) as [[g1 g2] |].
  - destruct (python_int g1) as [count | e]; cbn [bind]; [| discriminate].
    destruct (python_float g2) as [value |]; [| discriminate].
    destruct (list_repeat value count) as [copies | e] eqn:Hr;
      cbn [bind]; [| discriminate].
    intros H. injection H as <-.
    rewrite (list_repeat_inv _ _ _ Hr).
    now rewrite length_app, repeat_length.
  - destruct (python_float token); intros H; injection H as <-.
    + now rewrite length_app.
    + reflexivity.
Qed.

Lemma decode_tokens_count (tokens : list string) :
  forall values values',
    decode_tokens values tokens = Ok values' ->
    count_tokens (List.length values) tokens = Ok (List.length values').
Proof.
  induction tokens as [|t tokens IH]; intros values values' H.
  - injection H as <-. reflexivity.
  - cbn [decode_tokens] in H. cbn [count_tokens].
    destruct (decode_token values t) as [v |] eqn:Ht; [| discriminate].
    rewrite (decode_token_count _ _ _ Ht). cbn [bind]. now apply IH.
Qed.

(** X4.  On a document the decoder reads without exception, the counter
    gives the number of decoded values. *)
Theorem X4_count_is_decoded_length (lines : list string)
    (values : list float) :
  decompress_cmg_format_to_array lines = Ok values ->
  count_cmg_data_points_accurate (Some lines) = List.length values.
Proof.
  unfold decompress_cmg_format_to_array, count_cmg_data_points_accurate.
  rewrite decode_lines_tokens, count_lines_tokens. intros H.
  pose proof (decode_tokens_count _ [] values H) as Hc.
  cbn [List.length] in Hc. now rewrite Hc.
Qed.

Lemma X4_count_is_decoded_length_witness :
  decompress_cmg_format_to_array ["** porosity"; "2*0.25 1.5"; ""; "3*0"]
  = Ok [0.25; 0.25; 1.5; 0; 0; 0]%float
  /\ count_cmg_data_points_accurate
       (Some ["** porosity"; "2*0.25 1.5"; ""; "3*0"])
     = 6.
Proof.
  assert (decompress_cmg_format_to_array
            ["** porosity"; "2*0.25 1.5"; ""; "3*0"]
          = Ok [0.25; 0.25; 1.5; 0; 0; 0]%float) as Hd
    by (vm_compute; reflexivity).
  split; [exact Hd |].
  exact (X4_count_is_decoded_length _ _ Hd).
Defined.

Lemma re_match_star (ds r : string) :
  string_forallb is_digit ds = true -> is_empty ds = false ->
  exists g2, re_match_count_run (ds ++ "*" ++ r) = Some (ds, g2).
Proof.
  intros Hd Hne. unfold re_match_count_run.
  rewrite (span_app is_digit ds) by (try assumption; reflexivity).
  rewrite Hne. cbn [append].
  destruct (take_sign r) as [sgn r3].
  destruct (span is_digit r3) as [d1 r4].
  destruct (take_dot r4) as [dot r5].
  destruct (span is_digit r5) as [d2 r6]. eauto.
Qed.

Lemma count_make_token (n : nat) (value : float) (count : nat) :
  1 <= count ->
  allocatable count ->
  count_token n (make_token value count) = Ok (n + count).
Proof.
  intros Hc Ha. unfold make_token.
  destruct (str_N_spec (N.of_nat count)) as (Hd & Hne & _).
  destruct (isclose value zero); destruct (count =? 1)%nat eqn:H1.
  - apply Nat.eqb_eq in H1. subst count. reflexivity.
  - unfold count_token.
    rewrite re_match_count_zero, (python_int_str_nat count Ha). cbn [bind].
    now rewrite Nat2N.id.
  - apply Nat.eqb_eq in H1. subst count. unfold count_token.
    destruct (is_finite value) eqn:Hfin.
    + now rewrite (re_match_format_6f value Hfin),
        (python_float_format_6f value Hfin).
    + unfold format_6f. unfold is_finite in Hfin.
      destruct (is_nan value); [reflexivity |].
      destruct (is_infinity value); [| discriminate].
      now destruct (get_sign value).
  - unfold count_token.
    destruct (re_match_star (str_nat count) (format_6f value) Hd Hne)
      as [g2 ->].
    rewrite (python_int_str_nat count Ha). cbn [bind].
    now rewrite Nat2N.id.
Qed.

Lemma count_run_tokens (fuel : nat) :
  forall l n,
    List.length l <= fuel ->
    allocatable (List.length l) ->
    count_tokens n (map (fun r => make_token (fst r) (snd r))
                      (runs_from fuel l))
    = Ok (n + List.length l).
Proof.
  induction fuel as [|fuel IH]; intros l n Hl Ha.
  - destruct l; [cbn; f_equal; lia | simpl in Hl; lia].
  - destruct l as [|v rest]; [cbn; f_equal; lia |]. simpl in Hl.
    pose proof (run_length_le v rest) as Hk.
    cbn [runs_from map count_tokens fst snd].
    rewrite count_make_token;
      [| lia | apply (allocatable_le _ (List.length (v :: rest)));
               [cbn [List.length]; lia | exact Ha]].
    cbn [bind].
    rewrite IH;
      [| rewrite length_skipn; lia
       | apply (allocatable_le _ (List.length (v :: rest)));
         [rewrite length_skipn; cbn [List.length]; lia | exact Ha]].
    rewrite length_skipn. cbn [List.length]. f_equal. lia.
Qed.

(** X5.  The counter finds as many data points in the document of the
    encoder as the array has elements, for every array (also with
    infinities and NaN) of a length an array can have, and every line
    width. *)
Theorem X5_count_of_encoded_array (array : list float) (w : Z) :
  allocatable (List.length array) ->
  exists lines,
    compress_array_to_cmg_format array w = Some lines
    /\ count_cmg_data_points_accurate (Some (written_lines header lines))
       = List.length array.
Proof.
  intros Ha.
  destruct (compress_array_data_tokens array w) as (lines & Hc & Ht).
  exists lines. split; [exact Hc |].
  unfold count_cmg_data_points_accurate.
  rewrite count_lines_tokens, Ht. unfold cmg_tokens, runs.
  now rewrite count_run_tokens.
Qed.

Lemma X5_count_of_encoded_array_witness :
  allocatable (List.length [0; 0; 0; infinity; nan; 2.5]%float)
  /\ exists lines,
       compress_array_to_cmg_format [0; 0; 0; infinity; nan; 2.5]%float 80
       = Some lines
       /\ count_cmg_data_points_accurate (Some (written_lines header lines))
          = 6.
Proof.
  assert (allocatable (List.length [0; 0; 0; infinity; nan; 2.5]%float))
    as Ha by (vm_compute; discriminate).
  split; [exact Ha |].
  exact (X5_count_of_encoded_array [0; 0; 0; infinity; nan; 2.5]%float 80 Ha).
Defined.

(** ** The GRDECL reader *)

Lemma startswith_slash_upper (s : string) :
  startswith "/" (upper s) = startswith "/" s.
Proof.
  destruct s as [|c s]; [reflexivity |]. cbn [upper startswith].
  f_equal. ascii_cases c.
Qed.

Lemma gdecl_lines_header (pre : list string) :
  Forall (fun l => startswith "/" (strip l) = false) pre ->
  forall values rest,
    gdecl_lines false values (pre ++ rest) = gdecl_lines false values rest.
Proof.
  induction 1 as [|l pre Hl Hpre IH]; intros values rest; [reflexivity |].
  cbn [app gdecl_lines]. rewrite startswith_slash_upper, Hl.
  destruct (is_empty (strip l)); apply IH.
Qed.

(** X6.  The GRDECL reader ignores everything before the first line that
    starts with a slash; a file without such a line has no values and the
    reader raises. *)
Theorem X6_gdecl_header_skipped (pre rest : list string) :
  Forall (fun l => startswith "/" (strip l) = false) pre ->
  read_gdecl_format_file (pre ++ rest) = read_gdecl_format_file rest
  /\ read_gdecl_format_file pre = Raise NoNumericalValues.
Proof.
  intros H. unfold read_gdecl_format_file. split.
  - now rewrite gdecl_lines_header.
  - rewrite <- (app_nil_r pre), gdecl_lines_header by assumption. reflexivity.
Qed.

Lemma X6_gdecl_header_skipped_witness :
  Forall (fun l => startswith "/" (strip l) = false) ["PORO"; "1.5 2.5"]
  /\ read_gdecl_format_file (["PORO"; "1.5 2.5"] ++ ["/"; "3*0.25 /"])
     = Ok [0.25; 0.25; 0.25]%float
  /\ read_gdecl_format_file ["PORO"; "1.5 2.5"] = Raise NoNumericalValues.
Proof.
  assert (Forall (fun l => startswith "/" (strip l) = false)
            ["PORO"; "1.5 2.5"]) as H by (repeat constructor).
  split; [exact H |].
  destruct (X6_gdecl_header_skipped ["PORO"; "1.5 2.5"] ["/"; "3*0.25 /"] H)
    as [H1 H2].
  split; [rewrite H1; vm_compute; reflexivity | exact H2].
Defined.

Lemma forallb_lstrip_by (q sp : ascii -> bool) (s : string) :
  string_forallb q s = true -> string_forallb q (lstrip_by sp s) = true.
Proof.
  induction s as [|c s IH]; [trivial |]. intros H. cbn [lstrip_by].
  destruct (sp c); [| exact H].
  cbn [string_forallb] in H. apply andb_true_iff in H as [_ H]. now apply IH.
Qed.

Lemma forallb_rstrip_by (q sp : ascii -> bool) (s : string) :
  string_forallb q s = true -> string_forallb q (rstrip_by sp s) = true.
Proof.
  induction s as [|c s IH]; [trivial |]. intros H. cbn [rstrip_by].
  cbn [string_forallb] in H. apply andb_true_iff in H as [Hc H].
  destruct (sp c && is_empty (rstrip_by sp s)); [reflexivity |].
  cbn [string_forallb]. now rewrite Hc, IH.
Qed.

Lemma forallb_rev_append (q : ascii -> bool) (a b : string) :
  string_forallb q (string_rev_append a b)
  = string_forallb q a && string_forallb q b.
Proof.
  revert b. induction a as [|c a IH]; intros b; [reflexivity |].
  cbn [string_rev_append string_forallb]. rewrite IH. cbn [string_forallb].
  destruct (q c), (string_forallb q a), (string_forallb q b); reflexivity.
Qed.

Lemma forallb_split_from (q : ascii -> bool) (s : string) :
  forall word,
    string_forallb q word = true -> string_forallb q s = true ->
    Forall (fun t => string_forallb q t = true) (split_from word s).
Proof.
  induction s as [|c s IH]; intros word Hw Hs; cbn [split_from].
  - destruct (is_empty word); repeat constructor.
    now rewrite forallb_rev_append, Hw.
  - cbn [string_forallb] in Hs. apply andb_true_iff in Hs as [Hc Hs].
    destruct (is_space c).
    + destruct (is_empty word); [now apply IH |].
      constructor; [now rewrite forallb_rev_append, Hw | now apply IH].
    + apply IH; [| exact Hs]. cbn [string_forallb]. now rewrite Hc.
Qed.

Lemma gdecl_lines_plain (lines : list string) :
  Forall
    (fun l =>
       string_forallb (fun c => negb (is_slash c)) l = true
       /\ startswith "**" (strip l) = false)
    lines ->
  forall values, gdecl_lines true values lines = decode_lines values lines.
Proof.
  induction 1 as [|l lines [Hl Hc] Hlines IH]; intros values; [reflexivity |].
  cbn [gdecl_lines decode_lines]. rewrite startswith_slash_upper, Hc.
  assert (string_forallb (fun c => negb (is_slash c)) (strip l) = true) as Hs
    by (unfold strip; now apply forallb_rstrip_by, forallb_lstrip_by).
  destruct (strip l) as [|c r] eqn:Hstrip; [apply IH |].
  cbn [is_empty orb startswith].
  cbn [string_forallb] in Hs. apply andb_true_iff in Hs as [Hc1 Hr].
  unfold is_slash in Hc1. apply negb_true_iff in Hc1.
  rewrite Ascii.eqb_sym, Hc1. cbn [andb].
  assert (map (rstrip_by is_slash) (split (String c r)) = split (String c r))
    as ->.
  { rewrite <- (map_id (split (String c r))) at 2.
    apply map_ext_in. intros t Ht. apply rstrip_by_clean.
    pose proof (forallb_split_from (fun c => negb (is_slash c)) (String c r)
                  EmptyString eq_refl) as Hall.
    rewrite Forall_forall in Hall. apply Hall; [| exact Ht].
    cbn [string_forallb]. apply andb_true_iff. split; [| exact Hr].
    unfold is_slash. now rewrite Hc1. }
  destruct (decode_tokens values (split (String c r))); [apply IH | reflexivity].
Qed.

(** X7.  After a line that starts with a slash, data lines without any
    slash and without comment lines are read by the GRDECL reader exactly
    as the CMG reader reads them: same values, same exception. *)
Theorem X7_gdecl_reads_like_cmg (marker : string) (lines : list string) :
  startswith "/" (strip marker) = true ->
  Forall
    (fun l =>
       string_forallb (fun c => negb (is_slash c)) l = true
       /\ startswith "**" (strip l) = false)
    lines ->
  read_gdecl_format_file (marker :: lines) = read_cmg_format_file lines.
Proof.
  intros Hm Hl. unfold read_gdecl_format_file, read_cmg_format_file.
  cbn [gdecl_lines]. rewrite startswith_slash_upper, Hm.
  assert (is_empty (strip marker) = false) as ->
    by (destruct (strip marker); [discriminate | reflexivity]).
  now rewrite gdecl_lines_plain.
Qed.

Lemma X7_gdecl_reads_like_cmg_witness :
  startswith "/" (strip "/ data") = true
  /\ Forall
       (fun l =>
          string_forallb (fun c => negb (is_slash c)) l = true
          /\ startswith "**" (strip l) = false)
       ["3*0 2*1.000000"; "2.500000"]
  /\ read_gdecl_format_file ["/ data"; "3*0 2*1.000000"; "2.500000"]
     = read_cmg_format_file ["3*0 2*1.000000"; "2.500000"].
Proof.
  assert (Forall
            (fun l =>
               string_forallb (fun c => negb (is_slash c)) l = true
               /\ startswith "**" (strip l) = false)
            ["3*0 2*1.000000"; "2.500000"]) as H
    by (repeat constructor).
  split; [reflexivity |]. split; [exact H |].
  exact (X7_gdecl_reads_like_cmg "/ data" _ eq_refl H).
Defined.

(** ** The text reader *)

Lemma text_lines_decode (lines : list string) :
  Forall
    (fun l =>
       strip l = EmptyString
       \/ (split (strip l) = [strip l]
           /\ re_match_count_run (strip l) = None
           /\ startswith "**" (strip l) = false))
    lines ->
  forall values, decode_lines values lines = Ok (text_lines values lines).
Proof.
  induction 1 as [|l lines Hl Hlines IH]; intros values; [reflexivity |].
  cbn [decode_lines text_lines].
  destruct Hl as [-> | (Hs & Hm & Hc)]; [apply IH |].
  rewrite Hc, Hs, orb_false_r.
  destruct (is_empty (strip l)); [apply IH |].
  cbn [decode_tokens]. unfold decode_token. rewrite Hm.
  destruct (python_float (strip l)); cbn [bind]; apply IH.
Qed.

(** X8.  On a file whose lines are blank or hold a single token that is
    neither a count run nor a comment, the text reader and the CMG reader
    agree: the numbers [float] accepts, in order, or the error of the
    empty result. *)
Theorem X8_text_reads_like_cmg (lines : list string) :
  Forall
    (fun l =>
       strip l = EmptyString
       \/ (split (strip l) = [strip l]
           /\ re_match_count_run (strip l) = None
           /\ startswith "**" (strip l) = false))
    lines ->
  read_text_file lines = read_cmg_format_file lines.
Proof.
  intros H. unfold read_text_file, read_cmg_format_file.
  rewrite (text_lines_decode lines H). cbn [bind].
  now destruct (text_lines [] lines).
Qed.

Lemma X8_text_reads_like_cmg_witness :
  Forall
    (fun l =>
       strip l = EmptyString
       \/ (split (strip l) = [strip l]
           /\ re_match_count_run (strip l) = None
           /\ startswith "**" (strip l) = false))
    ["0.25"; ""; "porosity"; " 1e-3 "]
  /\ read_text_file ["0.25"; ""; "porosity"; " 1e-3 "]
     = read_cmg_format_file ["0.25"; ""; "porosity"; " 1e-3 "].
Proof.
  assert (Forall
            (fun l =>
               strip l = EmptyString
               \/ (split (strip l) = [strip l]
                   /\ re_match_count_run (strip l) = None
                   /\ startswith "**" (strip l) = false))
            ["0.25"; ""; "porosity"; " 1e-3 "]) as H.
  { repeat constructor; try (now left); right; repeat split. }
  split; [exact H |]. exact (X8_text_reads_like_cmg _ H).
Defined.

(** ** The comparator *)

Lemma where_greater_In (tolerance : float) (d : list float) :
  forall start i,
    In i (where_greater tolerance start d)
    <-> start <= i < start + List.length d
        /\ (tolerance <? nth (i - start) d zero)%float = true.
Proof.
  induction d as [|x d IH]; intros start i; cbn [where_greater List.length].
  - split; [contradiction | lia].
  - assert (forall P : Prop,
               (i = start /\ (tolerance <? x)%float = true) \/
               (In i (where_greater tolerance (S start) d)) <-> P ->
               (if (tolerance <? x)%float
                then In i (start :: where_greater tolerance (S start) d)
                else In i (where_greater tolerance (S start) d)) <-> P) as Hif.
    { intros P HP. rewrite <- HP. destruct (tolerance <? x)%float; cbn [In].
      - split; [intros [-> | H]; auto | intros [[-> _] | H]; auto].
      - split; [auto | intros [[_ H] | H]; [discriminate | exact H]]. }
    assert (forall b : bool, (if b
               then In i (start :: where_greater tolerance (S start) d)
               else In i (where_greater tolerance (S start) d))
            <-> In i (if b then start :: where_greater tolerance (S start) d
                      else where_greater tolerance (S start) d))
      as Hb by (now intros []).
    rewrite <- Hb. apply Hif. rewrite IH. split.
    + intros [[-> Hx] | [Hr Hx]].
      * rewrite Nat.sub_diag. split; [lia | exact Hx].
      * split; [lia |].
        replace (i - start) with (S (i - S start)) by lia. exact Hx.
    + intros [Hr Hx]. destruct (Nat.eq_dec i start) as [-> | Hne].
      * left. rewrite Nat.sub_diag in Hx. now split.
      * right. split; [lia |].
        replace (i - start) with (S (i - S start)) in Hx by lia. exact Hx.
Qed.

Lemma where_greater_sorted (tolerance : float) (d : list float) :
  forall start,
    StronglySorted lt (where_greater tolerance start d).
Proof.
  induction d as [|x d IH]; intros start; cbn [where_greater]; [constructor |].
  destruct (tolerance <? x)%float; [| apply IH].
  constructor; [apply IH |].
  apply Forall_forall. intros i Hi. apply where_greater_In in Hi. lia.
Qed.

Lemma nth_differences (a b : list float) :
  forall i,
    List.length a = List.length b ->
    i < List.length a ->
    nth i (map abs (map (fun p => (fst p - snd p)%float) (combine a b))) zero
    = abs (nth i a zero - nth i b zero).
Proof.
  revert b. induction a as [|x a IH]; intros b i Hl Hi; [simpl in Hi; lia |].
  destruct b as [|y b]; [discriminate |].
  destruct i as [|i]; [reflexivity |].
  cbn [combine map nth]. apply IH; simpl in *; lia.
Qed.

(** X9.  [compare_arrays] raises nothing, whatever the two arrays: the
    tests of the lengths come before the subtraction and the maximum. *)
Theorem X9_compare_never_raises (np_mean : list float -> float)
    (array1 array2 : list float) (tolerance : float)
    (file1_name file2_name : string) :
  exists c,
    compare_arrays np_mean array1 array2 tolerance file1_name file2_name
    = Ok c.
Proof.
  unfold compare_arrays.
  destruct (List.length array1 =? 0)%nat eqn:H1; [eauto |].
  destruct (List.length array2 =? 0)%nat eqn:H2; [eauto |].
  destruct (List.length array1 =? List.length array2)%nat eqn:H3;
    cbn [negb]; [| eauto].
  destruct (np_array_equal array1 array2); [eauto |].
  unfold np_subtract. rewrite H3. cbn [bind].
  destruct array1 as [|x1 a1]; [discriminate |].
  destruct array2 as [|x2 a2]; [discriminate |].
  cbn [combine map np_fmax bind].
  match goal with |- context [(?n =? 0)%nat] => destruct (n =? 0)%nat end;
    eauto.
Qed.

(** X10.  What a result of [compare_arrays] says.  The dictionary with
    an error is returned exactly for an empty array or different
    lengths, with both sizes.  Otherwise [identical] is the tolerance
    match, an exact match is [np.array_equal], and the indices are
    listed exactly when the arrays are not identical: in increasing
    order, as many as [different_elements], and precisely the positions
    where the absolute difference exceeds the tolerance. *)
Theorem X10_compare_result (np_mean : list float -> float)
    (array1 array2 : list float) (tolerance : float)
    (file1_name file2_name : string) (c : comparison) :
  compare_arrays np_mean array1 array2 tolerance file1_name file2_name = Ok c ->
  match c with
  | SizeError identical _ size1 size2 =>
      identical = false
      /\ size1 = List.length array1 /\ size2 = List.length array2
      /\ (array1 = [] \/ array2 = []
          \/ List.length array1 <> List.length array2)
  | Compared identical exact_match tolerance_match _ _ n indices =>
      List.length array1 = List.length array2 /\ array1 <> []
      /\ identical = tolerance_match
      /\ exact_match = np_array_equal array1 array2
      /\ (exact_match = true -> identical = true)
      /\ (identical = true <-> n = 0)
      /\ (identical = true <-> indices = None)
      /\ forall l,
           indices = Some l ->
           List.length l = n
           /\ StronglySorted lt l
           /\ forall i,
                In i l
                <-> i < List.length array1
                    /\ (tolerance <? abs (nth i array1 zero - nth i array2 zero))%float
                       = true
  end.
Proof.
  unfold compare_arrays.
  destruct (List.length array1 =? 0)%nat eqn:H1.
  { intros H. injection H as <-. apply Nat.eqb_eq in H1.
    repeat split; [now symmetry |]. left. now destruct array1. }
  destruct (List.length array2 =? 0)%nat eqn:H2.
  { intros H. injection H as <-. apply Nat.eqb_eq in H2.
    repeat split; [now symmetry |]. right. left. now destruct array2. }
  destruct (List.length array1 =? List.length array2)%nat eqn:H3; cbn [negb].
  2:{ intros H. injection H as <-. apply Nat.eqb_neq in H3.
      repeat split. now right; right. }
  apply Nat.eqb_eq in H3 as Hlen.
  assert (array1 <> []) as Hne by (intros ->; discriminate).
  destruct (np_array_equal array1 array2) eqn:Heq.
  { intros H. injection H as <-.
    repeat split; try reflexivity; try assumption; try discriminate. }
  unfold np_subtract. rewrite H3. cbn [bind].
  set (differences :=
         map abs (map (fun p => (fst p - snd p)%float) (combine array1 array2))).
  destruct (np_fmax differences) as [max_diff | e]; [| discriminate].
  cbn [bind].
  pose proof (where_greater_In tolerance differences 0) as Hin.
  pose proof (where_greater_sorted tolerance differences 0) as Hsorted.
  assert (List.length differences = List.length array1) as Hdl.
  { unfold differences. rewrite !length_map, length_combine. lia. }
  destruct (List.length (where_greater tolerance 0 differences) =? 0)%nat
    eqn:Hn; intros H; injection H as <-.
  - repeat split; try reflexivity; try assumption; try discriminate.
  - apply Nat.eqb_neq in Hn.
    split; [exact Hlen |]. split; [exact Hne |]. split; [reflexivity |].
    split; [reflexivity |]. split; [discriminate |].
    split; [split; [discriminate | intros H; contradiction] |].
    split; [split; discriminate |].
    intros l Hl. injection Hl as <-. split; [reflexivity |].
    split; [exact Hsorted |]. intros i. rewrite Hin, Nat.sub_0_r, Hdl.
    split.
    + intros [Hr Hx]. split; [lia |].
      unfold differences in Hx. rewrite nth_differences in Hx by lia.
      exact Hx.
    + intros [Hr Hx]. split; [lia |].
      unfold differences. rewrite nth_differences by lia. exact Hx.
Qed.

Lemma X10_compare_result_witness :
  compare_arrays (fun _ => zero) [1; 2; 5]%float [1; 2.5; 3]%float 0.1 "a" "b"
  = Ok (Compared false false false 2 0 2 (Some [1; 2]))
  /\ (forall i,
         In i [1; 2]
         <-> i < 3
             /\ (0.1 <? abs (nth i [1; 2; 5]%float zero
                              - nth i [1; 2.5; 3]%float zero))%float
                = true).
Proof.
  assert (compare_arrays (fun _ => zero) [1; 2; 5]%float [1; 2.5; 3]%float
            0.1 "a" "b"
          = Ok (Compared false false false 2 0 2 (Some [1; 2]))) as H
    by (vm_compute; reflexivity).
  split; [exact H |].
  destruct (X10_compare_result _ _ _ _ _ _ _ H)
    as (_ & _ & _ & _ & _ & _ & _ & Hl).
  destruct (Hl [1; 2] eq_refl) as (_ & _ & Hi). exact Hi.
Defined.

(** *** Not-a-number in the comparator *)

Lemma is_nan_Prim2SF (x : float) : is_nan x = true -> Prim2SF x = S754_nan.
Proof.
  unfold is_nan. rewrite eqb_spec. unfold SFeqb.
  destruct (Prim2SF x) as [s | s | | s m e]; cbn [SFcompare].
  - discriminate.
  - now destruct s.
  - reflexivity.
  - rewrite Z.compare_refl, Pos.compare_cont_refl. now destruct s.
Qed.

Lemma difference_nan (x y : float) :
  is_nan x = true \/ is_nan y = true ->
  Prim2SF (abs (x - y)) = S754_nan.
Proof.
  intros H. rewrite abs_spec, sub_spec. unfold SF64sub, SFsub.
  destruct H as [H | H]; rewrite (is_nan_Prim2SF _ H).
  - reflexivity.
  - now destruct (Prim2SF x).
Qed.

Lemma ltb_nan (t d : float) :
  Prim2SF d = S754_nan -> (t <? d)%float = false.
Proof.
  intros H. rewrite ltb_spec, H. unfold SFltb. now destruct (Prim2SF t).
Qed.

Lemma eqb_nan (x y : float) :
  is_nan x = true \/ is_nan y = true -> (x =? y)%float = false.
Proof.
  intros H. rewrite eqb_spec. unfold SFeqb.
  destruct H as [H | H]; rewrite (is_nan_Prim2SF _ H);
    [reflexivity | now destruct (Prim2SF x)].
Qed.

Lemma where_greater_none (tolerance : float) (d : list float) :
  Forall (fun x => (tolerance <? x)%float = false) d ->
  forall start, where_greater tolerance start d = [].
Proof.
  induction 1 as [|x d Hx Hd IH]; intros start; [reflexivity |].
  cbn [where_greater]. rewrite Hx. apply IH.
Qed.

(** X11.  A NaN is never reported as a difference.  When at every
    position one of the two elements is a NaN, whatever the other one,
    [compare_arrays] answers that the arrays are identical within the
    tolerance (and not exactly), with no differing element. *)
Theorem X11_nan_is_no_difference (np_mean : list float -> float)
    (array1 array2 : list float) (tolerance : float)
    (file1_name file2_name : string) :
  array1 <> [] ->
  Forall2 (fun x y => is_nan x = true \/ is_nan y = true) array1 array2 ->
  exists max_diff mean_diff,
    compare_arrays np_mean array1 array2 tolerance file1_name file2_name
    = Ok (Compared true false true max_diff mean_diff 0 None).
Proof.
  intros Hne Hnan. pose proof (Forall2_length Hnan) as Hlen.
  unfold compare_arrays.
  destruct array1 as [|x a1]; [congruence |].
  destruct array2 as [|y a2]; [discriminate |].
  cbn [List.length Nat.eqb]. cbn [List.length] in Hlen.
  injection Hlen as Hlen. rewrite Hlen, Nat.eqb_refl. cbn [negb].
  inversion Hnan as [|? ? ? ? Hxy Hrest]; subst.
  unfold np_array_equal. cbn [all_eqb]. rewrite (eqb_nan x y Hxy).
  rewrite andb_false_r. unfold np_subtract.
  cbn [List.length Nat.eqb]. rewrite Hlen, Nat.eqb_refl. cbn [bind].
  cbn [combine map np_fmax bind].
  rewrite where_greater_none.
  - cbn [List.length Nat.eqb]. eauto.
  - change (Forall (fun d => (tolerance <? d)%float = false)
              (map abs (map (fun p => (fst p - snd p)%float)
                          (combine (x :: a1) (y :: a2))))).
    clear - Hnan. induction Hnan as [|u v l1 l2 Huv Hl IH]; [constructor |].
    cbn [combine map fst snd]. constructor; [| exact IH].
    apply ltb_nan. now apply difference_nan.
Qed.

Lemma X11_nan_is_no_difference_witness :
  ([nan; nan] <> []
   /\ Forall2 (fun x y => is_nan x = true \/ is_nan y = true)
        [nan; nan] [5; 7]%float)
  /\ exists max_diff mean_diff,
       compare_arrays (fun _ => zero) [nan; nan] [5; 7]%float 1e-10 "a" "b"
       = Ok (Compared true false true max_diff mean_diff 0 None).
Proof.
  assert (Forall2 (fun x y => is_nan x = true \/ is_nan y = true)
            [nan; nan] [5; 7]%float) as H
    by (repeat constructor; now left).
  split; [split; [discriminate | exact H] |].
  apply (X11_nan_is_no_difference (fun _ => zero) [nan; nan] [5; 7]%float);
    [discriminate | exact H].
Defined.

Lemma all_eqb_refl (a : list float) :
  all_eqb a a = true <-> Forall (fun x => is_nan x = false) a.
Proof.
  induction a as [|x a IH]; [split; [constructor | reflexivity] |].
  cbn [all_eqb]. rewrite andb_true_iff, IH. unfold is_nan. split.
  - intros [Hx Ha]. constructor; [now rewrite Hx | exact Ha].
  - intros H. inversion H as [|? ? Hx Ha]; subst.
    apply negb_false_iff in Hx. now split.
Qed.

(** X12.  An array compared with itself is an exact match exactly when
    it holds no NaN; without NaN the result is the exact-match
    dictionary. *)
Theorem X12_compare_with_itself (np_mean : list float -> float)
    (array : list float) (tolerance : float) (file1_name file2_name : string) :
  array <> [] ->
  (np_array_equal array array = true
   <-> Forall (fun x => is_nan x = false) array)
  /\ (Forall (fun x => is_nan x = false) array ->
      compare_arrays np_mean array array tolerance file1_name file2_name
      = Ok (Compared true true true zero zero 0 None))
  /\ (forall c,
         compare_arrays np_mean array array tolerance file1_name file2_name
         = Ok c ->
         Exists (fun x => is_nan x = true) array ->
         exists identical max_diff mean_diff n indices,
           c = Compared identical false identical max_diff mean_diff n indices).
Proof.
  intros Hne.
  assert (np_array_equal array array = true
          <-> Forall (fun x => is_nan x = false) array) as Hiff.
  { unfold np_array_equal. rewrite Nat.eqb_refl. cbn [andb].
    apply all_eqb_refl. }
  split; [exact Hiff |]. split.
  - intros Hall. apply Hiff in Hall. unfold compare_arrays.
    destruct array as [|x a]; [congruence |].
    cbn [List.length Nat.eqb]. rewrite Nat.eqb_refl. cbn [negb].
    now rewrite Hall.
  - intros c Hc Hex.
    assert (np_array_equal array array = false) as Hfalse.
    { apply not_true_is_false. intros E. apply Hiff in E.
      apply Exists_exists in Hex as (x & Hin & Hx).
      rewrite Forall_forall in E. rewrite (E x Hin) in Hx. discriminate. }
    unfold compare_arrays in Hc.
    destruct array as [|x a]; [congruence |].
    cbn [List.length Nat.eqb] in Hc. rewrite Nat.eqb_refl, Hfalse in Hc.
    cbn [negb] in Hc. unfold np_subtract in Hc.
    rewrite Nat.eqb_refl in Hc. cbn [bind combine map np_fmax] in Hc.
    match type of Hc with
    | context [(?n =? 0)%nat] => destruct (n =? 0)%nat
    end; injection Hc as <-; eauto 10.
Qed.

Lemma X12_compare_with_itself_witness :
  [0.25; 0.5]%float <> []
  /\ (np_array_equal [0.25; 0.5]%float [0.25; 0.5]%float = true
      <-> Forall (fun x => is_nan x = false) [0.25; 0.5]%float)
  /\ (Forall (fun x => is_nan x = false) [0.25; 0.5]%float ->
      compare_arrays (fun _ => zero) [0.25; 0.5]%float [0.25; 0.5]%float
        1e-10 "a" "b"
      = Ok (Compared true true true zero zero 0 None))
  /\ (forall c,
         compare_arrays (fun _ => zero) [0.25; 0.5]%float [0.25; 0.5]%float
           1e-10 "a" "b"
         = Ok c ->
         Exists (fun x => is_nan x = true) [0.25; 0.5]%float ->
         exists identical max_diff mean_diff n indices,
           c = Compared identical false identical max_diff mean_diff n indices).
Proof.
  split; [discriminate |].
  apply (X12_compare_with_itself (fun _ => zero) [0.25; 0.5]%float 1e-10
           "a" "b").
  discriminate.
Defined.

(** ** The scatter and its variants *)

(** When the validation passes, the validated function builds the array
    as the simple one does. *)
Lemma validation_passes (ids : list Z) (values : list float) (total_cells : Z) :
  ids <> [] ->
  List.length ids = List.length values ->
  Forall (fun id => (1 <= id <= total_cells)%Z) ids ->
  full_porosity_array ids values total_cells
  = (full_porosity <- np_zeros total_cells ;;
     np_setitem full_porosity (map (fun id => id - 1)%Z ids) values).
Proof.
  intros Hids Hlen Hrange.
  destruct (np_min_max_spec ids Hids)
    as (lo & hi & Hlo & Hhi & Hall & Hinlo & Hinhi).
  rewrite Forall_forall in Hrange.
  pose proof (Hrange lo Hinlo). pose proof (Hrange hi Hinhi).
  unfold full_porosity_array.
  apply Nat.eqb_eq in Hlen. rewrite Hlen, Hlo, Hhi. cbn [negb bind].
  assert ((lo <? 1)%Z || (total_cells <? hi)%Z = false) as ->
    by (apply orb_false_iff; lia).
  reflexivity.
Qed.

Lemma full_porosity_array_inv (ids : list Z) (values full : list float)
    (total_cells : Z) :
  full_porosity_array ids values total_cells = Ok full ->
  ids <> []
  /\ List.length ids = List.length values
  /\ Forall (fun id => (1 <= id <= total_cells)%Z) ids.
Proof.
  unfold full_porosity_array.
  destruct (List.length ids =? List.length values)%nat eqn:Hlen;
    cbn [negb]; [| discriminate].
  destruct ids as [|id ids]; [discriminate |].
  destruct (np_min_max_spec (id :: ids) ltac:(discriminate))
    as (lo & hi & Hlo & Hhi & Hall & _).
  rewrite Hlo, Hhi. cbn [bind].
  destruct ((lo <? 1)%Z || (total_cells <? hi)%Z) eqn:Hr; [discriminate |].
  intros _. apply orb_false_iff in Hr as [H1 H2].
  split; [discriminate |]. split; [now apply Nat.eqb_eq |].
  eapply Forall_impl; [| exact Hall]. cbn beta. intros a Ha. lia.
Qed.

(** The array of a valid call, position by position. *)
Lemma scatter_spec (ids : list Z) (values : list float) (total_cells : Z) :
  ids <> [] ->
  List.length ids = List.length values ->
  Forall (fun id => (1 <= id <= total_cells)%Z) ids ->
  exists full,
    full_porosity_array ids values total_cells = Ok full
    /\ Z.of_nat (List.length full) = total_cells
    /\ (forall p,
          p < List.length full ->
          (forall id, In id ids -> Z.of_nat p <> (id - 1)%Z) ->
          nth_error full p = Some zero)
    /\ (forall j id v,
          nth_error ids j = Some id ->
          nth_error values j = Some v ->
          (forall j' id', j < j' -> nth_error ids j' = Some id' -> id' <> id) ->
          nth_error full (Z.to_nat (id - 1)) = Some v).
Proof.
  intros Hids Hlen Hrange.
  rewrite (validation_passes ids values total_cells Hids Hlen Hrange).
  assert (1 <= total_cells)%Z as Htot.
  { destruct ids as [|id ids]; [congruence |].
    inversion Hrange; subst. lia. }
  rewrite Forall_forall in Hrange.
  destruct (put_each_spec (map (fun id => (id - 1)%Z) ids) values
              (repeat zero (Z.to_nat total_cells)))
    as (full & Hput & Hl & Hkeep & Hlast).
  { now rewrite length_map. }
  { apply Forall_map, Forall_forall. intros id Hid. rewrite repeat_length.
    specialize (Hrange id Hid). lia. }
  rewrite repeat_length in Hl.
  exists full. split; [| split; [lia | split]].
  - unfold np_zeros. assert ((total_cells <? 0)%Z = false) as -> by lia.
    cbn [bind]. unfold np_setitem.
    apply Nat.eqb_eq in Hlen. now rewrite length_map, Nat.eqb_sym, Hlen.
  - intros p Hp Hfree. rewrite Hkeep.
    + apply nth_error_repeat. lia.
    + intros k Hk. apply in_map_iff in Hk as (id & <- & Hid).
      now apply Hfree.
  - intros j id v Hj Hv Hno.
    apply (Hlast j (id - 1)%Z v).
    + rewrite nth_error_map, Hj. reflexivity.
    + exact Hv.
    + intros j' k' Hlt Hj'. rewrite nth_error_map in Hj'.
      destruct (nth_error ids j') as [id' |] eqn:Hid'; [| discriminate].
      injection Hj' as <-. specialize (Hno j' id' Hlt Hid'). lia.
Qed.







Lemma map_fst_combine (A B : Type) (l1 : list A) :
  forall l2 : list B,
    List.length l1 = List.length l2 -> map fst (combine l1 l2) = l1.
Proof.
  induction l1 as [|a l1 IH]; intros l2 H; [reflexivity |].
  destruct l2 as [|b l2]; [discriminate |].
  cbn [combine map fst]. f_equal. apply IH. now injection H.
Qed.

Lemma In_combine_nth_error (A B : Type) (l1 : list A) :
  forall (l2 : list B) a b,
    In (a, b) (combine l1 l2) ->
    exists j, nth_error l1 j = Some a /\ nth_error l2 j = Some b.
Proof.
  induction l1 as [|x l1 IH]; intros l2 a b H; [contradiction |].
  destruct l2 as [|y l2]; [contradiction |].
  destruct H as [H | H].
  - injection H as -> ->. now exists 0.
  - destruct (IH l2 a b H) as (j & H1 & H2). now exists (S j).
Qed.

Lemma In_combine_exists (A B : Type) (l1 : list A) :
  forall (l2 : list B) a,
    List.length l1 = List.length l2 -> In a l1 ->
    exists b, In (a, b) (combine l1 l2).
Proof.
  induction l1 as [|x l1 IH]; intros l2 a Hlen H; [contradiction |].
  destruct l2 as [|y l2]; [discriminate |].
  destruct H as [-> | H].
  - exists y. now left.
  - destruct (IH l2 a ltac:(now injection Hlen) H) as [b Hb].
    exists b. now right.
Qed.

(** The array of a valid call with distinct identifiers, by pairs. *)
Lemma scatter_by_pairs (ids : list Z) (values : list float) (total_cells : Z) :
  ids <> [] ->
  List.length ids = List.length values ->
  Forall (fun id => (1 <= id <= total_cells)%Z) ids ->
  NoDup ids ->
  exists full,
    full_porosity_array ids values total_cells = Ok full
    /\ Z.of_nat (List.length full) = total_cells
    /\ (forall p,
          p < List.length full ->
          ~ In (Z.of_nat p + 1)%Z ids -> nth_error full p = Some zero)
    /\ (forall p v,
          In (Z.of_nat p + 1, v)%Z (combine ids values) ->
          nth_error full p = Some v).
Proof.
  intros Hids Hlen Hrange Hnd.
  destruct (scatter_spec ids values total_cells Hids Hlen Hrange)
    as (full & Hfull & Hl & Hzero & Hlast).
  exists full. split; [exact Hfull |]. split; [exact Hl |]. split.
  - intros p Hp Hnot. apply Hzero; [exact Hp |].
    intros id Hid Heq. apply Hnot.
    replace (Z.of_nat p + 1)%Z with id by lia. exact Hid.
  - intros p v Hin.
    destruct (In_combine_nth_error _ _ _ _ _ _ Hin) as (j & Hj & Hv).
    replace p with (Z.to_nat (Z.of_nat p + 1 - 1)) by lia.
    apply (Hlast j _ v Hj Hv).
    intros j' id' Hlt Hj' ->.
    rewrite NoDup_nth_error in Hnd.
    assert (j = j') as Heq; [| lia].
    apply Hnd; [| congruence].
    apply nth_error_Some. congruence.
Qed.

(** X15.  With distinct identifiers that pass the validation, the order
    of the pairs does not matter: the same pairs in another order give
    the same array. *)
Theorem X15_order_of_pairs (ids ids' : list Z) (values values' : list float)
    (total_cells : Z) :
  ids <> [] ->
  List.length ids = List.length values ->
  Forall (fun id => (1 <= id <= total_cells)%Z) ids ->
  NoDup ids ->
  List.length ids' = List.length values' ->
  Permutation (combine ids values) (combine ids' values') ->
  generate_full_porosity ids' values' total_cells
  = generate_full_porosity ids values total_cells.
Proof.
  intros Hids Hlen Hrange Hnd Hlen' Hperm.
  assert (Permutation ids ids') as Hpi.
  { rewrite <- (map_fst_combine _ _ ids values Hlen).
    rewrite <- (map_fst_combine _ _ ids' values' Hlen').
    now apply Permutation_map. }
  assert (ids' <> []) as Hids'
    by (intros ->; apply Permutation_sym, Permutation_nil in Hpi; congruence).
  assert (Forall (fun id => (1 <= id <= total_cells)%Z) ids') as Hrange'
    by (eapply Permutation_Forall; eassumption).
  assert (NoDup ids') as Hnd' by (eapply Permutation_NoDup; eassumption).
  destruct (scatter_by_pairs ids values total_cells Hids Hlen Hrange Hnd)
    as (full & Hfull & Hl & Hzero & Hpair).
  destruct (scatter_by_pairs ids' values' total_cells Hids' Hlen' Hrange' Hnd')
    as (full' & Hfull' & Hl' & Hzero' & Hpair').
  unfold generate_full_porosity. rewrite Hfull, Hfull'.
  assert (full' = full) as ->; [| reflexivity].
  apply nth_error_ext. intros p.
  destruct (Nat.lt_ge_cases p (List.length full)) as [Hp | Hp].
  - destruct (in_dec Z.eq_dec (Z.of_nat p + 1)%Z ids) as [Hin | Hnot].
    + destruct (In_combine_exists _ _ ids values _ Hlen Hin) as [v Hv].
      rewrite (Hpair p v Hv). apply Hpair'.
      eapply Permutation_in; eassumption.
    + rewrite (Hzero p Hp Hnot). apply Hzero'; [lia |].
      intros Hin. apply Hnot.
      eapply Permutation_in; [apply Permutation_sym |]; eassumption.
  - assert (nth_error full p = None) as -> by (apply nth_error_None; lia).
    apply nth_error_None. lia.
Qed.

Lemma X15_order_of_pairs_witness :
  [3; 1]%Z <> []
  /\ List.length [3; 1]%Z = List.length [0.25; 0.5]%float
  /\ Forall (fun id => (1 <= id <= 4)%Z) [3; 1]%Z
  /\ NoDup [3; 1]%Z
  /\ List.length [1; 3]%Z = List.length [0.5; 0.25]%float
  /\ Permutation (combine [3; 1]%Z [0.25; 0.5]%float)
       (combine [1; 3]%Z [0.5; 0.25]%float)
  /\ generate_full_porosity [1; 3]%Z [0.5; 0.25]%float 4
     = generate_full_porosity [3; 1]%Z [0.25; 0.5]%float 4.
Proof.
  assert (Forall (fun id => (1 <= id <= 4)%Z) [3; 1]%Z) as Hrange
    by (repeat constructor; lia).
  assert (NoDup [3; 1]%Z) as Hnd.
  { constructor; [| constructor; [intros [] | constructor]].
    intros [H | []]. discriminate H. }
  assert (Permutation (combine [3; 1]%Z [0.25; 0.5]%float)
            (combine [1; 3]%Z [0.5; 0.25]%float)) as Hperm
    by (cbn [combine]; apply perm_swap).
  split; [discriminate |]. split; [reflexivity |]. split; [exact Hrange |].
  split; [exact Hnd |]. split; [reflexivity |]. split; [exact Hperm |].
  apply (X15_order_of_pairs [3; 1]%Z [1; 3]%Z [0.25; 0.5]%float
           [0.5; 0.25]%float 4);
    [discriminate | reflexivity | exact Hrange | exact Hnd | reflexivity
    | exact Hperm].
Defined.



(** ** The encoder on arrays that are empty or not *)

Lemma compress_nonempty (array : list float) (w : Z) :
  array <> [] ->
  exists line lines,
    compress_array_to_cmg_format array w = Some (line :: lines).
Proof.
  intros Hne.
  destruct (compress_array_segments array w) as (segs & Heq & Hc & _).
  destruct array as [|v rest]; [congruence |].
  unfold cmg_tokens in Hc. rewrite runs_cons in Hc. cbn [map] in Hc.
  destruct segs as [|seg segs]; [discriminate |].
  rewrite Heq. cbn [map]. eauto.
Qed.


Lemma count_written_lines (array : list float) (w : Z) (lines : list string) :
  allocatable (List.length array) ->
  compress_array_to_cmg_format array w = Some lines ->
  count_lines 0 (written_lines header lines) = Ok (List.length array).
Proof.
  intros Ha H.
  destruct (compress_array_data_tokens array w) as (lines' & Hc & Ht).
  rewrite H in Hc. injection Hc as <-.
  rewrite count_lines_tokens, Ht. unfold cmg_tokens, runs.
  now rewrite count_run_tokens.
Qed.

(** ** The generator with the summary *)

Section GeneratorProperties.

Variable np_mean : list float -> float.
Variable np_amin : list float -> float.
Variable np_amax : list float -> float.
Variable true_div : Z -> Z -> float.
Variable path_str : string -> string.
Variable with_suffix_dat : string -> string.

(** X18.  [generate_full_porosity_data] never divides by zero: it
    raises exactly the exceptions of the validation, before any file is
    written; otherwise it saves the array of [generate_full_porosity] and
    returns the summary, whose counts are those of the arguments.  With
    compression the [.dat] file is the header and the lines of the
    encoder at width 80, of which there is at least one, and the summary
    holds their number. *)
Theorem X18_generator_with_summary (ids : list Z) (values : list float)
    (output_file : string) (total_cells : Z) (use_compression : bool) :
  exists out,
    generate_full_porosity_data np_mean np_amin np_amax true_div path_str
      with_suffix_dat ids values output_file total_cells use_compression
    = Some out
    /\ call_result out <> inl ZeroDivisionError
    /\ (forall e,
          returned (generate_full_porosity ids values total_cells) = Raise e ->
          out = {| call_result := inl (Inherited e);
                   npy_file := None; dat_file := None |})
    /\ (forall full,
          returned (generate_full_porosity ids values total_cells) = Ok full ->
          npy_file out = Some full
          /\ exists s,
               call_result out = inr s
               /\ total_cells_key s = total_cells
               /\ active_cells s = List.length ids
               /\ inactive_cells s
                  = (total_cells - Z.of_nat (List.length ids))%Z
               /\ (use_compression = false ->
                   dat_file out = None /\ compressed_lines_key s = None)
               /\ (use_compression = true ->
                   exists lines,
                     compress_array_to_cmg_format full 80 = Some lines
                     /\ lines <> []
                     /\ dat_file out = Some (written_lines header lines)
                     /\ compressed_lines_key s = Some (List.length lines))).
Proof.
  unfold generate_full_porosity_data, generate_full_porosity.
  destruct (full_porosity_array ids values total_cells) as [full | e] eqn:Hf.
  2:{ eexists. split; [reflexivity |]. split; [discriminate |].
      split; [| discriminate]. cbn [returned]. intros e' H.
      now injection H as <-. }
  destruct (full_porosity_array_inv _ _ _ _ Hf) as (Hids & Hlen & Hrange).
  destruct (scatter_spec ids values total_cells Hids Hlen Hrange)
    as (full' & Hf' & Hl & _).
  rewrite Hf in Hf'. injection Hf' as <-.
  assert (1 <= total_cells)%Z as Htot.
  { destruct ids as [|id ids']; [congruence |]. inversion Hrange; subst. lia. }
  assert ((total_cells =? 0)%Z = false) as Hz by lia.
  assert (full <> []) as Hfne by (intros ->; simpl in Hl; lia).
  destruct use_compression.
  - destruct (compress_nonempty full 80 Hfne) as (line & lines & Hc).
    rewrite Hc. cbn [List.length Nat.eqb]. rewrite Hz.
    eexists. split; [reflexivity |]. split; [discriminate |].
    split; [discriminate |]. cbn [returned]. intros full' H.
    injection H as <-. split; [reflexivity |].
    eexists. split; [reflexivity |].
    split; [reflexivity |]. split; [reflexivity |]. split; [reflexivity |].
    split; [discriminate |].
    intros _. exists (line :: lines). split; [exact Hc |].
    split; [discriminate |]. split; reflexivity.
  - rewrite Hz. eexists. split; [reflexivity |]. split; [discriminate |].
    split; [discriminate |]. cbn [returned]. intros full' H.
    injection H as <-. split; [reflexivity |].
    eexists. split; [reflexivity |].
    split; [reflexivity |]. split; [reflexivity |]. split; [reflexivity |].
    split; [intros _; split; reflexivity | discriminate].
Qed.

(** X19.  After a call with compression that returns its summary, for
    a number of cells an array can have, the counter finds [total_cells]
    data points in the [.dat] file. *)
Theorem X19_dat_file_has_total_cells (ids : list Z) (values : list float)
    (output_file : string) (total_cells : Z) (out : files (data_exn + summary))
    (s : summary) :
  allocatable (Z.to_nat total_cells) ->
  generate_full_porosity_data np_mean np_amin np_amax true_div path_str
    with_suffix_dat ids values output_file total_cells true
  = Some out ->
  call_result out = inr s ->
  Z.of_nat (count_cmg_data_points_accurate (dat_file out)) = total_cells.
Proof.
  intros Ha. unfold generate_full_porosity_data.
  destruct (full_porosity_array ids values total_cells) as [full | e] eqn:Hf.
  2:{ intros H. injection H as <-. discriminate. }
  destruct (full_porosity_array_inv _ _ _ _ Hf) as (Hids & Hlen & Hrange).
  destruct (scatter_spec ids values total_cells Hids Hlen Hrange)
    as (full' & Hf' & Hl & _).
  rewrite Hf in Hf'. injection Hf' as <-.
  destruct (compress_array_to_cmg_format full 80) as [lines |] eqn:Hc;
    [| discriminate].
  assert (allocatable (List.length full)) as Hfull
    by (replace (List.length full) with (Z.to_nat total_cells) by lia;
        exact Ha).
  pose proof (count_written_lines full 80 lines Hfull Hc) as Hcount.
  destruct (List.length lines =? 0)%nat; intros H; injection H as <-;
    cbn [call_result dat_file count_cmg_data_points_accurate]; intros _;
    rewrite Hcount; exact Hl.
Qed.

End GeneratorProperties.

Lemma X19_dat_file_has_total_cells_witness :
  allocatable (Z.to_nat 4)
  /\ exists out s,
    generate_full_porosity_data (fun _ => zero) (fun _ => zero)
      (fun _ => zero) (fun _ _ => zero) (fun p => p) (fun p => p)
      [3; 1]%Z [0.25; 0.5]%float "full" 4 true
    = Some out
    /\ call_result out = inr s
    /\ dat_file out
       = Some (written_lines header ["0.500000 0 0.250000 0"])
    /\ Z.of_nat (count_cmg_data_points_accurate (dat_file out)) = 4%Z.
Proof.
  assert (allocatable (Z.to_nat 4)) as Ha by (vm_compute; discriminate).
  split; [exact Ha |].
  destruct (generate_full_porosity_data (fun _ => zero) (fun _ => zero)
              (fun _ => zero) (fun _ _ => zero) (fun p => p) (fun p => p)
              [3; 1]%Z [0.25; 0.5]%float "full" 4 true)
    as [out |] eqn:Hout; [| vm_compute in Hout; discriminate].
  destruct (call_result out) as [e | s] eqn:Hs.
  - exfalso. vm_compute in Hout. injection Hout as <-. discriminate.
  - exists out, s. split; [reflexivity |]. split; [exact Hs |].
    split.
    + vm_compute in Hout. injection Hout as <-. reflexivity.
    + exact (X19_dat_file_has_total_cells _ _ _ _ _ _ _ _ _ _ _ _ Ha Hout Hs).
Defined.

(** ** Needed line breaks *)

Lemma needed_breaks_snoc (w : Z) (t : string) (a : list string) :
  (w < Z.of_nat (String.length (join a ++ " " ++ t)))%Z ->
  forall l,
    needed_breaks w (l ++ [a]) -> needed_breaks w (l ++ [a; [t]]).
Proof.
  intros Hlen. induction l as [|x l IH]; intros H.
  - cbn. now split.
  - destruct l as [|y l].
    + cbn [app needed_breaks] in *. destruct a as [|c a]; [exact I |].
      split; [apply H |]. now split.
    + cbn [app needed_breaks] in *. destruct y as [|c y]; [exact I |].
      destruct H as [H1 H2]. split; [exact H1 |]. now apply IH.
Qed.

Lemma needed_breaks_grow (w : Z) (t : string) (cur : list string) :
  cur <> [] ->
  forall l,
    needed_breaks w (l ++ [cur]) -> needed_breaks w (l ++ [cur ++ [t]]).
Proof.
  intros Hne. destruct cur as [|c cur]; [congruence |].
  induction l as [|x l IH]; intros H; [exact I |].
  destruct l as [|y l].
  - cbn [app needed_breaks] in *. exact H.
  - cbn [app needed_breaks] in *. destruct y as [|d y]; [exact I |].
    destruct H as [H1 H2]. split; [exact H1 |]. now apply IH.
Qed.

Lemma add_token_greedy (w : Z) (done : list string)
    (st : string * list string) (t : string) :
  Forall (fun t => is_word t = true) done ->
  greedy_inv w done st ->
  greedy_inv w (done ++ [t]) (add_token w st t).
Proof.
  intros Hw [segs cur_seg Hdone Hsegs Hfirst Hbr]. unfold add_token.
  assert (Forall (fun t => is_word t = true) cur_seg) as Hwcur.
  { rewrite <- Hdone in Hw. now apply Forall_app in Hw as [_ Hw]. }
  destruct (is_empty (join cur_seg)) eqn:He; cbn [negb andb].
  - apply (join_empty cur_seg Hwcur) in He. subst cur_seg.
    rewrite (Hfirst eq_refl) in *.
    apply (Greedy_inv w (done ++ [t]) [] [t]).
    + rewrite <- Hdone. reflexivity.
    + constructor.
    + discriminate.
    + exact I.
  - assert (cur_seg <> []) as Hne by (intros ->; discriminate).
    assert (with_current segs cur_seg = segs ++ [cur_seg]) as Hwc
      by (now destruct cur_seg).
    rewrite Hwc in Hbr.
    destruct (w <? Z.of_nat (String.length (join cur_seg ++ " " ++ t)))%Z
      eqn:Hlen.
    + replace (map join segs ++ [join cur_seg])%list
        with (map join (segs ++ [cur_seg]))
        by (rewrite map_app; reflexivity).
      apply (Greedy_inv w (done ++ [t]) (segs ++ [cur_seg]) [t]).
      * rewrite concat_app. cbn [List.concat]. rewrite app_nil_r, Hdone.
        reflexivity.
      * apply Forall_app. split; [assumption | now constructor].
      * discriminate.
      * cbn [with_current]. rewrite <- app_assoc. cbn [app].
        apply needed_breaks_snoc; [| exact Hbr]. now apply Z.ltb_lt.
    + rewrite <- (join_snoc cur_seg t Hne).
      apply (Greedy_inv w (done ++ [t]) segs (cur_seg ++ [t])).
      * rewrite app_assoc, Hdone. reflexivity.
      * assumption.
      * intros H. now destruct cur_seg.
      * assert (with_current segs (cur_seg ++ [t]) = segs ++ [cur_seg ++ [t]])
          as -> by (now destruct cur_seg).
        now apply needed_breaks_grow.
Qed.

Lemma fold_add_token_greedy (w : Z) (tokens : list string) :
  forall done st,
    Forall (fun t => is_word t = true) (done ++ tokens) ->
    greedy_inv w done st ->
    greedy_inv w (done ++ tokens) (fold_left (add_token w) tokens st).
Proof.
  induction tokens as [|t tokens IH]; intros done st Hw Hinv.
  - now rewrite app_nil_r.
  - cbn [fold_left].
    replace (done ++ t :: tokens)%list with ((done ++ [t]) ++ tokens)%list
      by (rewrite <- app_assoc; reflexivity).
    apply IH.
    + rewrite <- app_assoc. exact Hw.
    + apply add_token_greedy; [| assumption].
      now apply Forall_app in Hw as [Hw _].
Qed.

(** X20.  The encoder breaks a line only when it must: the lines are
    the tokens in order, none is empty, and for two consecutive lines the
    first token of the second, added to the first line after a space,
    would have exceeded the width. *)
Theorem X20_needed_line_breaks (array : list float) (w : Z) :
  exists segs,
    compress_array_to_cmg_format array w = Some (map join segs)
    /\ List.concat segs = cmg_tokens array
    /\ Forall (fun seg => seg <> []) segs
    /\ needed_breaks w segs.
Proof.
  rewrite compress_array_tokens.
  pose proof (cmg_tokens_words array) as Hw.
  assert (greedy_inv w [] (EmptyString, [])) as Hinit.
  { apply (Greedy_inv w [] [] []); [reflexivity | constructor | trivial |].
    exact I. }
  pose proof (fold_add_token_greedy w (cmg_tokens array) [] _ Hw Hinit) as Hinv.
  cbn [app] in Hinv.
  destruct Hinv as [segs cur_seg Hdone Hsegs Hfirst Hbr].
  assert (Forall (fun t => is_word t = true) cur_seg) as Hwcur.
  { rewrite <- Hdone in Hw. now apply Forall_app in Hw as [_ Hw]. }
  exists (with_current segs cur_seg). unfold close_lines.
  destruct cur_seg as [|c cur].
  - cbn [join is_empty negb with_current]. rewrite app_nil_r in Hdone.
    now repeat split.
  - rewrite (join_nonempty (c :: cur) Hwcur) by discriminate.
    cbn [negb with_current]. rewrite map_app. cbn [map].
    split; [reflexivity |]. split; [| split; [| exact Hbr]].
    + rewrite concat_app. cbn [List.concat]. now rewrite app_nil_r.
    + apply Forall_app. split; [assumption |]. now constructor.
Qed.
